(** * Static complexity estimator of the playground page

    Shallow embedding of the analysis functions of the playground
    component: [analyzeComplexity], [analyzeNestedLoops],
    [analyzeRecursion], [analyzeDataStructures],
    [generateComplexityData] and [factorial].

    A JavaScript string is a sequence of UTF-16 code units; it is modelled
    as a list of code units ([N]).  A JavaScript number that holds a loop
    counter is modelled as [Z]; the ordinates of the growth curve are
    modelled as real numbers (see [Growth]). *)

From Stdlib Require Import List Bool Ascii String NArith ZArith Lia.
From Stdlib Require Import DecimalString.
From Stdlib Require Import Reals Lra.
From Stdlib Require Import Sorted Factorial.
From Stdlib Require Floats.
Import ListNotations.

Set Implicit Arguments.

(** ** Strings *)

Module JsString.

Definition char16 := N.
Definition jsstring := list char16.

Definition ch (a : ascii) : char16 := N_of_ascii a.

(** An ASCII literal as a JavaScript string. *)
Definition lit (s : string) : jsstring := map ch (list_ascii_of_string s).

(** The line feed, written '\n' in the source. *)
Definition LF : char16 := 10%N.
Definition nl : jsstring := [LF].

(** Strict equality [s === t] of two strings. *)
Fixpoint eqb (s t : jsstring) : bool :=
  match s, t with
  | [], [] => true
  | a :: s', b :: t' => (a =? b)%N && eqb s' t'
  | _, _ => false
  end.

(** WhiteSpace and LineTerminator code units of ECMAScript: what
    [String.prototype.trim] strips and what the class [\s] matches. *)
Definition isSpace (c : char16) : bool :=
  ((9 <=? c) && (c <=? 13) || (c =? 32) || (c =? 160) || (c =? 5760)
   || (8192 <=? c) && (c <=? 8202) || (c =? 8232) || (c =? 8233)
   || (c =? 8239) || (c =? 8287) || (c =? 12288) || (c =? 65279))%N.

(** The class [\w]: ASCII letters, digits and the underscore. *)
Definition isWord (c : char16) : bool :=
  ((65 <=? c) && (c <=? 90) || (97 <=? c) && (c <=? 122)
   || (48 <=? c) && (c <=? 57) || (c =? 95))%N.

(** [stripPrefix p s] is the rest of [s] after its prefix [p], if [p] is one. *)
Fixpoint stripPrefix (p s : jsstring) : option jsstring :=
  match p, s with
  | [], _ => Some s
  | _ :: _, [] => None
  | a :: p', b :: s' => if (a =? b)%N then stripPrefix p' s' else None
  end.

Definition startsWith (s p : jsstring) : bool :=
  match stripPrefix p s with Some _ => true | None => false end.

(** [s.includes(sub)]. *)
Fixpoint includes (s sub : jsstring) : bool :=
  startsWith s sub ||
  match s with
  | [] => false
  | _ :: s' => includes s' sub
  end.

(** The longest prefix whose code units satisfy [p], and the rest. *)
Fixpoint span (p : char16 -> bool) (s : jsstring) : jsstring * jsstring :=
  match s with
  | [] => ([], [])
  | c :: s' =>
      if p c then let (a, b) := span p s' in (c :: a, b) else ([], s)
  end.

Fixpoint dropWhile (p : char16 -> bool) (s : jsstring) : jsstring :=
  match s with
  | [] => []
  | c :: s' => if p c then dropWhile p s' else s
  end.

(** [s.trim()]. *)
Definition trim (s : jsstring) : jsstring :=
  rev (dropWhile isSpace (rev (dropWhile isSpace s))).

(** [s.split('\n')]: the pieces between line feeds, never an empty list. *)
Fixpoint splitLines (s : jsstring) : list jsstring :=
  match s with
  | [] => [[]]
  | c :: s' =>
      if (c =? LF)%N then [] :: splitLines s'
      else match splitLines s' with
           | [] => [[c]]
           | l :: ls => (c :: l) :: ls
           end
  end.

(** [xs.join(sep)]. *)
Fixpoint join (sep : jsstring) (xs : list jsstring) : jsstring :=
  match xs with
  | [] => []
  | [x] => x
  | x :: rest => x ++ sep ++ join sep rest
  end.

(** Decimal rendering of a non-negative integer, as a template literal
    prints a count. *)
Definition ofZ (z : Z) : jsstring :=
  lit (NilZero.string_of_int (Z.to_int z)).

End JsString.

Import JsString.

(** ** The loop-nesting analyzer *)

Record NestedLoops := { count : Z }.

Definition isLoopStart (trimmed : jsstring) : bool :=
  startsWith trimmed (lit "for ") || startsWith trimmed (lit "while ").

(** One iteration of the [for (const line of lines)] loop; the state is
    [(maxNesting, currentNesting)]. *)
Definition nestingStep (st : Z * Z) (line : jsstring) : Z * Z :=
  let (maxNesting, currentNesting) := st in
  let trimmed := trim line in
  if isLoopStart trimmed then
    let currentNesting := (currentNesting + 1)%Z in
    (Z.max maxNesting currentNesting, currentNesting)
  else if eqb trimmed [] || (negb (startsWith trimmed (lit " ")) && (currentNesting >? 0)%Z) then
    (maxNesting, Z.max 0 (currentNesting - 1))
  else (maxNesting, currentNesting).

Definition analyzeNestedLoops (code : jsstring) : NestedLoops :=
  let lines := splitLines code in
  {| count := fst (fold_left nestingStep lines (0, 0)%Z) |}.

(** ** The recursion analyzer *)

Record Recursion := { hasRecursion : bool; type : jsstring }.

Module Regex.

(** The regular expression [/def\s+(\w+)\s*\(/] tried at the head of [s].
    Result: the capture [$1], the matched text and the rest of [s].

    Each quantifier is greedy and what follows it starts with a code unit
    outside its class ([\w] after [\s+]; white space or an opening
    parenthesis after [\w+]; an opening parenthesis after [\s*]), so the
    only way to match is the longest run: backtracking never succeeds on a
    shorter one. *)
Definition matchDefAt (s : jsstring) : option (jsstring * jsstring * jsstring) :=
  match stripPrefix (lit "def") s with
  | None => None
  | Some s1 =>
      let (ws, s2) := span isSpace s1 in
      match ws with
      | [] => None
      | _ :: _ =>
          let (name, s3) := span isWord s2 in
          match name with
          | [] => None
          | _ :: _ =>
              let (ws', s4) := span isSpace s3 in
              match s4 with
              | c :: s5 =>
                  if (c =? ch "(")%N
                  then Some (name, lit "def" ++ ws ++ name ++ ws' ++ [ch "("], s5)
                  else None
              | [] => None
              end
          end
      end
  end.

(** [code.match(/def\s+(\w+)\s*\(/g)]: every match from left to right, the
    search resuming after the end of the previous match.  [skip] counts the
    code units of the current match that are still to be passed. *)
Fixpoint matchAllDefFrom (skip : nat) (s : jsstring) : list jsstring :=
  match s with
  | [] => []
  | _ :: s' =>
      match skip with
      | S k => matchAllDefFrom k s'
      | O =>
          match matchDefAt s with
          | Some (_, m, _) => m :: matchAllDefFrom (List.length m - 1) s'
          | None => matchAllDefFrom 0 s'
          end
      end
  end.

(** [String.prototype.match] with a global expression gives [null] when
    nothing matches. *)
Definition matchAllDef (code : jsstring) : option (list jsstring) :=
  match matchAllDefFrom 0 code with
  | [] => None
  | ms => Some ms
  end.

(** [m.replace(/def\s+(\w+)\s*\(/, '$1')]: the first match in [m] is
    replaced by its capture. *)
Fixpoint replaceDef (m : jsstring) : jsstring :=
  match m with
  | [] => []
  | c :: m' =>
      match matchDefAt m with
      | Some (name, _, rest) => name ++ rest
      | None => c :: replaceDef m'
      end
  end.

(** The lazy tail [[\s\S]*?(?=\ndef|\nclass|$)]: the shortest text after
    which the input continues with a line feed and "def", with a line feed
    and "class", or ends. *)
Fixpoint lazyBody (s : jsstring) : jsstring :=
  match s with
  | [] => []
  | c :: s' =>
      if startsWith s (nl ++ lit "def") || startsWith s (nl ++ lit "class")
      then []
      else c :: lazyBody s'
  end.

(** The expression
    [def\s+NAME\s*\([^)]*\):[\s\S]*?(?=\ndef|\nclass|$)] built for
    [funcName], tried at the head of [s]; the result is the matched text.
    [funcName] is always a capture of [\w+], so the white space before it
    and the parameter text up to the first closing parenthesis are again
    matched by their longest runs only. *)
Definition matchFuncAt (funcName s : jsstring) : option jsstring :=
  match stripPrefix (lit "def") s with
  | None => None
  | Some s1 =>
      let (ws, s2) := span isSpace s1 in
      match ws with
      | [] => None
      | _ :: _ =>
          match stripPrefix funcName s2 with
          | None => None
          | Some s3 =>
              let (ws', s4) := span isSpace s3 in
              match s4 with
              | c :: s5 =>
                  if (c =? ch "(")%N then
                    let (params, s6) := span (fun x => negb (x =? ch ")")%N) s5 in
                    match s6 with
                    | p :: q :: s7 =>
                        if ((p =? ch ")") && (q =? ch ":"))%N
                        then Some (lit "def" ++ ws ++ funcName ++ ws' ++ [ch "("]
                                     ++ params ++ lit "):" ++ lazyBody s7)
                        else None
                    | _ => None
                    end
                  else None
              | [] => None
              end
          end
      end
  end.

(** [code.match(funcPattern)]: [None] for [null], otherwise the first
    match, which is all the caller reads ([funcMatch[0]]). *)
Fixpoint matchFunc (funcName code : jsstring) : option jsstring :=
  match matchFuncAt funcName code with
  | Some m => Some m
  | None =>
      match code with
      | [] => None
      | _ :: code' => matchFunc funcName code'
      end
  end.

End Regex.

Import Regex.

Definition functionNames (functionMatches : list jsstring) : list jsstring :=
  map replaceDef functionMatches.

(** The [for (const funcName of functionNames)] loop with its early
    returns; falling out of the loop gives the final [return]. *)
Fixpoint recursionLoop (code : jsstring) (names : list jsstring) : Recursion :=
  match names with
  | [] => {| hasRecursion := false; type := lit "none" |}
  | funcName :: rest =>
      match matchFunc funcName code with
      | Some m =>
          if includes m (funcName ++ lit "(") then
            if includes funcName (lit "fibonacci")
               || includes m (funcName ++ lit "(n-1)") && includes m (funcName ++ lit "(n-2)")
            then {| hasRecursion := true; type := lit "fibonacci" |}
            else if includes m (lit "factorial")
                    || includes m (funcName ++ lit "(n-1)") && includes m (lit "n *")
            then {| hasRecursion := true; type := lit "factorial" |}
            else if includes m (funcName ++ lit "(")
            then {| hasRecursion := true; type := lit "linear" |}
            else recursionLoop code rest
          else recursionLoop code rest
      | None => recursionLoop code rest
      end
  end.

Definition analyzeRecursion (code : jsstring) : Recursion :=
  match matchAllDef code with
  | None => {| hasRecursion := false; type := lit "none" |}
  | Some functionMatches => recursionLoop code (functionNames functionMatches)
  end.

(** ** The data-structure detector *)

Definition pushIf (b : bool) (x : jsstring) (xs : list jsstring) : list jsstring :=
  if b then xs ++ [x] else xs.

Definition analyzeDataStructures (code : jsstring) : list jsstring :=
  let structures := [] in
  let structures :=
    pushIf (includes code (lit "list(") || includes code (lit "[]")) (lit "List") structures in
  let structures :=
    pushIf (includes code (lit "dict(") || includes code (lit "{}")) (lit "Dictionary") structures in
  let structures := pushIf (includes code (lit "set(")) (lit "Set") structures in
  let structures :=
    pushIf (includes code (lit "tuple(") || includes code (lit "(")) (lit "Tuple") structures in
  structures.

(** ** Completions *)

(** A call either returns a value or throws. *)
Inductive completion (A : Type) : Type :=
| Normal (a : A)
| Throw (e : jsstring).

Arguments Throw {A} e.

Definition bind {A B : Type} (c : completion A) (k : A -> completion B) : completion B :=
  match c with
  | Normal a => k a
  | Throw e => Throw e
  end.

Notation "x <- c ;; k" := (bind c (fun x => k))
  (at level 61, c at next level, right associativity).

(** ** The complexity classifier *)

Module Class.
Definition O_1 : jsstring := lit "O(1)".
Definition O_log_n : jsstring := lit "O(log n)".
Definition O_n : jsstring := lit "O(n)".
Definition O_n_log_n : jsstring := lit "O(n log n)".
(** "O(n²)" and "O(n³)": the superscripts are the code units U+00B2 and U+00B3. *)
Definition O_n2 : jsstring := lit "O(n" ++ [178%N] ++ lit ")".
Definition O_n3 : jsstring := lit "O(n" ++ [179%N] ++ lit ")".
Definition O_2n : jsstring := lit "O(2^n)".
Definition O_fact : jsstring := lit "O(n!)".
Definition Unknown : jsstring := lit "O(?)".
End Class.

Record Report := {
  complexity : jsstring;
  description : jsstring;
  details : list jsstring;
  worstCase : jsstring;
  bestCase : jsstring;
  averageCase : jsstring
}.

(** The three [let] variables of the [try] block. *)
Record Vars := { v_complexity : jsstring; v_description : jsstring; v_details : list jsstring }.

Definition assign (c d : jsstring) (pushed : list jsstring) (v : Vars) : Vars :=
  {| v_complexity := c; v_description := d; v_details := v_details v ++ pushed |}.

Definition usesSort (code : jsstring) : bool :=
  includes code (lit "sort(") || includes code (lit ".sort").

Definition usesListSearch (code : jsstring) : bool :=
  includes code (lit "in ") && includes code (lit "list").

(** The [if (recursion.hasRecursion) ... else if (nestedLoops.count ...)] chain. *)
Definition byRecursionOrLoops (nestedLoops : NestedLoops) (recursion : Recursion)
    (v : Vars) : Vars :=
  if hasRecursion recursion then
    if eqb (type recursion) (lit "fibonacci") || eqb (type recursion) (lit "exponential") then
      assign Class.O_2n (lit "Exponential time - exponential growth with input")
        [lit "Recursive function with multiple calls per recursion";
         lit "Consider using dynamic programming for optimization"] v
    else if eqb (type recursion) (lit "linear") then
      assign Class.O_n (lit "Linear time - single recursive call")
        [lit "Linear recursion detected"] v
    else if eqb (type recursion) (lit "factorial") then
      assign Class.O_fact (lit "Factorial time - extremely slow for large inputs")
        [lit "Factorial algorithm detected"] v
    else v
  else if (count nestedLoops >=? 3)%Z then
    assign Class.O_n3 (lit "Cubic time - three nested loops")
      [ofZ (count nestedLoops) ++ lit " levels of nested loops detected"] v
  else if (count nestedLoops =? 2)%Z then
    assign Class.O_n2 (lit "Quadratic time - two nested loops")
      [lit "Nested loops detected - quadratic growth"] v
  else if (count nestedLoops =? 1)%Z then
    assign Class.O_n (lit "Linear time - single loop")
      [lit "Single loop detected - linear growth"] v
  else v.

(** "Check for sorting algorithms". *)
Definition bySort (code : jsstring) (v : Vars) : Vars :=
  if usesSort code then
    assign Class.O_n_log_n (lit "Linearithmic time - efficient sorting")
      [lit "Built-in sorting algorithm detected"] v
  else v.

(** "Check for search operations". *)
Definition bySearch (code : jsstring) (v : Vars) : Vars :=
  if usesListSearch code then
    if eqb (v_complexity v) Class.O_1 then
      assign Class.O_n (lit "Linear time - list search")
        [lit "Linear search in list detected"] v
    else v
  else v.

(** "Data structure considerations". *)
Definition byDataStructures (dataStructures : list jsstring) (v : Vars) : Vars :=
  if (0 <? List.length dataStructures)%nat then
    {| v_complexity := v_complexity v; v_description := v_description v;
       v_details := v_details v
         ++ [lit "Data structures used: " ++ join (lit ", ") dataStructures] |}
  else v.

(** The [try] block after its three calls. *)
Definition classify (code : jsstring) (nestedLoops : NestedLoops) (recursion : Recursion)
    (dataStructures : list jsstring) : Report :=
  let v := {| v_complexity := Class.O_1;
              v_description := lit "Constant time - basic operations";
              v_details := [] |} in
  let v := byRecursionOrLoops nestedLoops recursion v in
  let v := bySort code v in
  let v := bySearch code v in
  let v := byDataStructures dataStructures v in
  {| complexity := v_complexity v;
     description := v_description v;
     details := v_details v;
     worstCase := v_complexity v;
     bestCase := if (count nestedLoops >? 0)%Z then Class.O_1 else Class.O_1;
     averageCase := v_complexity v |}.

(** The report of the [catch] block. *)
Definition catchReport : Report :=
  {| complexity := Class.Unknown;
     description := lit "Unable to analyze complexity";
     details := [lit "Code analysis failed"];
     worstCase := Class.Unknown;
     bestCase := Class.Unknown;
     averageCase := Class.Unknown |}.

Section Classifier.

(** The three calls of the [try] block, as calls that may throw. *)
Variable callNestedLoops : jsstring -> completion NestedLoops.
Variable callRecursion : jsstring -> completion Recursion.
Variable callDataStructures : jsstring -> completion (list jsstring).

Definition tryBlock (code : jsstring) : completion Report :=
  nestedLoops <- callNestedLoops code ;;
  recursion <- callRecursion code ;;
  dataStructures <- callDataStructures code ;;
  Normal (classify code nestedLoops recursion dataStructures).

(** [try { ... } catch (error) { return ... }]. *)
Definition analyzeComplexityWith (code : jsstring) : Report :=
  match tryBlock code with
  | Normal r => r
  | Throw _ => catchReport
  end.

End Classifier.

(** A call of a helper that returns. *)
Definition returning {A : Type} (f : jsstring -> A) : jsstring -> completion A :=
  fun code => Normal (f code).

(** A call that throws [e]. *)
Definition throwing {A : Type} (e : jsstring) : jsstring -> completion A :=
  fun _ => Throw e.

(** The classifier with the helpers of the component, which never throw. *)
Definition analyzeComplexity (code : jsstring) : Report :=
  analyzeComplexityWith
    (returning analyzeNestedLoops)
    (returning analyzeRecursion)
    (returning analyzeDataStructures)
    code.

(** ** The growth-curve generator *)

Module Growth.

(** The ordinates are JavaScript numbers.  They are modelled by the real
    numbers they stand for: the values of the polynomial, exponential and
    factorial classes are small integers, which a double holds exactly, and
    [Math.log2] is taken as the base-2 logarithm. *)
Record Point := { x : Z; y : R }.

Definition log2 (r : R) : R := (ln r / ln 2)%R.

(** [factorial] on the integers: [fuel] bounds the depth of the recursion,
    which is the argument itself.  The generator calls it with arguments up
    to 6 only, where the doubles of the source are these integers;
    [Double.factorial] below is the function on doubles. *)
Fixpoint factorialFuel (fuel : nat) (n : Z) : Z :=
  match fuel with
  | O => 1
  | S fuel' => if (n <=? 1)%Z then 1 else (n * factorialFuel fuel' (n - 1))%Z
  end.

Definition factorial (n : Z) : Z := factorialFuel (Z.to_nat n) n.

(** The [switch (complexity)] of the loop body: the value of [y] before the cap. *)
Definition ordinate (complexity : jsstring) (n : Z) : R :=
  if eqb complexity Class.O_1 then 1%R
  else if eqb complexity Class.O_log_n then log2 (IZR n)
  else if eqb complexity Class.O_n then IZR n
  else if eqb complexity Class.O_n_log_n then (IZR n * log2 (IZR n))%R
  else if eqb complexity Class.O_n2 then IZR (n * n)
  else if eqb complexity Class.O_n3 then IZR (n * n * n)
  else if eqb complexity Class.O_2n then IZR (2 ^ Z.min n 6)
  else if eqb complexity Class.O_fact then IZR (factorial (Z.min n 6))
  else IZR n.

(** [for (let n = 1; n <= 10; n++) { ...; data.push(...) }]. *)
Fixpoint forLoop (fuel : nat) (complexity : jsstring) (n : Z) (data : list Point)
  : list Point :=
  match fuel with
  | O => data
  | S fuel' =>
      if (n <=? 10)%Z
      then forLoop fuel' complexity (n + 1)
             (data ++ [{| x := n; y := Rmin (ordinate complexity n) 1000 |}])
      else data
  end.

Definition generateComplexityData (complexity : jsstring) : list Point :=
  forLoop 11 complexity 1 [].

(** The sizes of the loop and the point pushed for one of them. *)
Definition sizes : list Z := [1; 2; 3; 4; 5; 6; 7; 8; 9; 10]%Z.

Definition pointAt (complexity : jsstring) (n : Z) : Point :=
  {| x := n; y := Rmin (ordinate complexity n) 1000 |}.

End Growth.

(** ** [factorial] on doubles *)

Module Double.

(** [factorial] as the source runs it: on doubles, with a call stack that
    allows [stack] nested calls; [None] is the RangeError of an exhausted
    stack.  [Growth.factorial] is its value on the integers that the
    generator passes. *)
Fixpoint factorial (stack : nat) (n : PrimFloat.float) : option PrimFloat.float :=
  match stack with
  | O => None
  | S stack' =>
      if PrimFloat.leb n PrimFloat.one then Some PrimFloat.one
      else match factorial stack' (PrimFloat.sub n PrimFloat.one) with
           | Some r => Some (PrimFloat.mul n r)
           | None => None
           end
  end.

(** The double of a natural number below 2^63. *)
Definition ofNat (k : nat) : PrimFloat.float :=
  PrimFloat.of_uint63 (Uint63.of_Z (Z.of_nat k)).

(** The integer that a double is, if it is one. *)
Definition integerOf (f : PrimFloat.float) : option Z :=
  match FloatOps.Prim2SF f with
  | SpecFloat.S754_zero _ => Some 0%Z
  | SpecFloat.S754_finite s m e =>
      let sign := if s then (-1)%Z else 1%Z in
      if (0 <=? e)%Z then Some (sign * Zpos m * 2 ^ e)%Z
      else if (Zpos m mod 2 ^ (- e) =? 0)%Z
      then Some (sign * (Zpos m / 2 ^ (- e)))%Z
      else None
  | _ => None
  end.

End Double.

(** ** The loop-nesting rule in the words of the specification *)

(** Second definition, from the text of the specification and not from the
    source: "each loop-start line increments it and updates the running
    maximum; a blank line, or a non-indented line encountered while the
    counter is positive, decrements it by one (clamped at zero)".  A line
    is indented when it starts with white space. *)
Definition indented (line : jsstring) : bool :=
  match line with
  | [] => false
  | c :: _ => isSpace c
  end.

Definition specNestingStep (st : Z * Z) (line : jsstring) : Z * Z :=
  let (maxNesting, currentNesting) := st in
  let trimmed := trim line in
  if isLoopStart trimmed then
    (Z.max maxNesting (currentNesting + 1), (currentNesting + 1)%Z)
  else if eqb trimmed [] || (negb (indented line) && (currentNesting >? 0)%Z) then
    (maxNesting, Z.max 0 (currentNesting - 1))
  else (maxNesting, currentNesting).

Definition specNestedLoops (code : jsstring) : Z :=
  fst (fold_left specNestingStep (splitLines code) (0, 0)%Z).

(** ** The execution history *)

(** The updater that [runCode] gives to [setExecutionHistory]:
    [[currentCode, ...prev.filter(item => item !== currentCode)].slice(0, 10)]. *)
Definition updateHistory (currentCode : jsstring) (prev : list jsstring) : list jsstring :=
  firstn 10 (currentCode :: filter (fun item => negb (eqb item currentCode)) prev).

(** The entries of [prev] that the filter keeps. *)
Definition others (currentCode : jsstring) (prev : list jsstring) : list jsstring :=
  filter (fun item => negb (eqb item currentCode)) prev.

(** The two forms of the results of [analyzeRecursion]. *)
Definition noRecursion : Recursion := {| hasRecursion := false; type := lit "none" |}.
Definition recursionOf (kind : jsstring) : Recursion :=
  {| hasRecursion := true; type := kind |}.

(** The number of loop-start lines among [lines]. *)
Definition loopStarts (lines : list jsstring) : Z :=
  Z.of_nat (List.length (filter (fun line => isLoopStart (trim line)) lines)).

(** The history after a series of runs, the oldest run first. *)
Definition historyAfter (runs : list jsstring) (initial : list jsstring) : list jsstring :=
  fold_left (fun history code => updateHistory code history) runs initial.

(** ** The theme of the editor *)

(** The table [EDITOR_THEMES]: identifier and name. *)
Definition EDITOR_THEMES : list (jsstring * jsstring) :=
  [ (lit "auto", lit "Auto (Follow System)");
    (lit "vs-dark", lit "Dark (Default)");
    (lit "vs-light", lit "Light");
    (lit "hc-black", lit "High Contrast Black");
    (lit "hc-light", lit "High Contrast Light") ].

(** [getActualEditorTheme]; [theme] is the theme of the page, which may be
    undefined ([None]). *)
Definition getActualEditorTheme (editorTheme : jsstring) (theme : option jsstring)
  : jsstring :=
  if eqb editorTheme (lit "auto") then
    if match theme with Some t => eqb t (lit "dark") | None => false end
    then lit "vs-dark" else lit "vs-light"
  else editorTheme.

(** ** The complexity graph *)

Module Graph.

Import Growth.

Definition width : R := 300.
Definition height : R := 200.
Definition padding : R := 40.

(** [Math.max(...values)]; [None] stands for the result of the call
    without argument, which is not a real number. *)
Definition mathMax (values : list R) : option R :=
  match values with
  | [] => None
  | v :: vs => Some (fold_left Rmax vs v)
  end.

(** [const maxY = Math.max(...data.map(d => d.y))]. *)
Definition maxY (data : list Point) : option R := mathMax (map y data).

Definition getX (x : R) : R := (padding + (x - 1) * ((width - 2 * padding) / 9))%R.

(** [getY], with the [maxY] of its closure as first argument. *)
Definition getY (maxY y : R) : R :=
  (height - padding - (y / maxY) * (height - 2 * padding))%R.

End Graph.

(** * Vocabulary of the statements *)

(** The header of a definition as the scanner wants it: "def", white
    space, the name directly followed by the opening parenthesis, the
    parameter text, and the closing parenthesis directly followed by the
    colon. *)
Definition defHeader (ws name params : jsstring) : jsstring :=
  lit "def" ++ ws ++ name ++ [ch "("] ++ params ++ lit "):".

Definition nonEmpty (s : jsstring) : bool :=
  match s with [] => false | _ :: _ => true end.

Definition headerOk (ws name params : jsstring) : bool :=
  nonEmpty ws && forallb isSpace ws
  && nonEmpty name && forallb isWord name
  && forallb (fun c => negb (c =? ch ")")%N) params.

(** No match of the definition expression starts at one of the first [k]
    positions of [s]. *)
Fixpoint noDefIn (k : nat) (s : jsstring) : bool :=
  match k with
  | O => true
  | S k' =>
      match matchDefAt s with
      | Some _ => false
      | None => match s with [] => true | _ :: s' => noDefIn k' s' end
      end
  end.

(** The header of a definition as the function expression wants it, with
    the white space [ws'] that it allows between the name and the
    parenthesis. *)
Definition defHeaderWith (ws name ws' params : jsstring) : jsstring :=
  lit "def" ++ ws ++ name ++ ws' ++ [ch "("] ++ params ++ lit "):".

Definition headerOkWith (ws name ws' params : jsstring) : bool :=
  headerOk ws name params && forallb isSpace ws'.

(** No match of the function expression of [name] starts at one of the
    first [k] positions of [s]. *)
Fixpoint noFuncIn (name : jsstring) (k : nat) (s : jsstring) : bool :=
  match k with
  | O => true
  | S k' =>
      match matchFuncAt name s with
      | Some _ => false
      | None => match s with [] => true | _ :: s' => noFuncIn name k' s' end
      end
  end.

(** The matches of the definition expression that start at one of the
    first [k] positions of [s], as the scan finds them. *)
Fixpoint matchesBefore (k skip : nat) (s : jsstring) : list jsstring :=
  match k, s with
  | O, _ => []
  | _, [] => []
  | S k', _ :: s' =>
      match skip with
      | S j => matchesBefore k' j s'
      | O =>
          match matchDefAt s with
          | Some (_, m, _) => m :: matchesBefore k' (List.length m - 1) s'
          | None => matchesBefore k' 0 s'
          end
      end
  end.

(** The names of the definitions that start at one of the first [k]
    positions of the code. *)
Definition namesBefore (k : nat) (code : jsstring) : list jsstring :=
  functionNames (matchesBefore k 0 code).

(** The lookahead [(?=\ndef|\nclass|$)] holds before [r]. *)
Definition bodyEnds (r : jsstring) : bool :=
  match r with
  | [] => true
  | _ :: _ => startsWith r (nl ++ lit "def") || startsWith r (nl ++ lit "class")
  end.

(** The text of a function in the sense of the analyzer: from "def" to
    the next line that starts with "def" or "class". *)
Definition functionText (ws name params rest : jsstring) : jsstring :=
  defHeader ws name params ++ lazyBody rest.

(** The variables of the [try] block before the first test. *)
Definition start : Vars :=
  {| v_complexity := Class.O_1;
     v_description := lit "Constant time - basic operations";
     v_details := [] |}.

(** The class chosen from the loops alone. *)
Definition loopClass (depth : Z) : jsstring :=
  if (depth >=? 3)%Z then Class.O_n3
  else if (depth =? 2)%Z then Class.O_n2
  else if (depth =? 1)%Z then Class.O_n
  else Class.O_1.

(** One of the three calls of the [try] block throws on [code]. *)
Definition someCallThrows
    (callNestedLoops : jsstring -> completion NestedLoops)
    (callRecursion : jsstring -> completion Recursion)
    (callDataStructures : jsstring -> completion (list jsstring))
    (code : jsstring) : Prop :=
  (exists e, callNestedLoops code = Throw e)
  \/ (exists e, callRecursion code = Throw e)
  \/ (exists e, callDataStructures code = Throw e).

(** * Inputs used below *)

Module Inputs.

(** A function that returns a constant. *)
Definition constDef : jsstring :=
  lit "def f(n):" ++ nl ++ lit "    return 1".

(** The same function with a return annotation. *)
Definition annotatedDef : jsstring :=
  lit "def f(n) -> int:" ++ nl ++ lit "    return 1".

(** A definition after an assignment. *)
Definition assignThenDef : jsstring :=
  lit "x = 1" ++ nl ++ lit "def g(a, b):" ++ nl ++ lit "    return a".

(** The doubly recursive function of the second scenario. *)
Definition fib : jsstring :=
  lit "def f(n):" ++ nl ++ lit "    if n<=1: return n" ++ nl
  ++ lit "    return f(n-1)+f(n-2)".

(** The same function under the name "sort". *)
Definition fibNamedSort : jsstring :=
  lit "def sort(n):" ++ nl ++ lit "    return sort(n-1)+sort(n-2)".

(** The doubly recursive function after a simply recursive one. *)
Definition fibSecond : jsstring :=
  lit "def g(n):" ++ nl ++ lit "    return g(n)" ++ nl
  ++ lit "def f(n):" ++ nl ++ lit "    return f(n-1)+f(n-2)".

(** The two nested loops of the first scenario. *)
Definition nested : jsstring :=
  lit "for i in range(5):" ++ nl ++ lit "    for j in range(5):" ++ nl
  ++ lit "        print(i*j)".

(** Two nested loops around a sort call. *)
Definition nestedWithSort : jsstring :=
  lit "for i in a:" ++ nl ++ lit "    for j in b:" ++ nl ++ lit "        c.sort()".

(** Two nested loops with a statement between their headers. *)
Definition nestedWithGap : jsstring :=
  lit "for i in a:" ++ nl ++ lit "    x = 1" ++ nl ++ lit "    for j in b:" ++ nl
  ++ lit "        pass".

(** A membership test on a list, without a loop. *)
Definition listSearch : jsstring := lit "x in mylist".

Definition hello : jsstring := lit "print('hi')".

(** A list that is sorted in place, the third scenario. *)
Definition sorted : jsstring := lit "x=[1,2,3]" ++ nl ++ lit "x.sort()".

(** A single loop, the fifth scenario. *)
Definition singleLoop : jsstring :=
  lit "for i in range(5):" ++ nl ++ lit "    print(i)".

(** A doubly recursive function, written with a space before the
    parenthesis, after a definition with a return annotation. *)
Definition spacedFib : jsstring :=
  lit "def a(x) -> int:" ++ nl ++ lit "    return x" ++ nl
  ++ lit "def f (n):" ++ nl ++ lit "    return f(n-1)+f(n-2)".

(** A doubly recursive function with a return annotation. *)
Definition annotatedFib : jsstring :=
  lit "def f(n) -> int:" ++ nl ++ lit "    return f(n-1)+f(n-2)".

(** A doubly recursive function after a definition of the same name that
    is written with a space before the parenthesis. *)
Definition shadowedFib : jsstring :=
  lit "def f (n):" ++ nl ++ lit "    return 1" ++ nl
  ++ lit "def f(n):" ++ nl ++ lit "    return f(n-1)+f(n-2)".

(** A constant function after a definition with a return annotation. *)
Definition afterAnnotated : jsstring :=
  lit "def a(x) -> int:" ++ nl ++ lit "    return x" ++ nl
  ++ lit "def b(y):" ++ nl ++ lit "    return 1".

(** A constant function after a definition of the same name that is
    written with a space before the parenthesis. *)
Definition shadowedDef : jsstring :=
  lit "def f (n):" ++ nl ++ lit "    return 1" ++ nl
  ++ lit "def f(n):" ++ nl ++ lit "    return 1".

End Inputs.

(** * Facts about the string operations *)

Module JsStringFacts.

Lemma eqb_eq (s t : jsstring) : eqb s t = true <-> s = t.
Proof.
  revert t; induction s as [|a s IH]; intros [|b t]; simpl; split; intro H;
    try reflexivity; try discriminate.
  - apply andb_true_iff in H as [Hab Hst].
    apply N.eqb_eq in Hab. apply IH in Hst. now subst.
  - injection H as -> ->. rewrite N.eqb_refl. simpl. now apply IH.
Qed.

Lemma eqb_refl (s : jsstring) : eqb s s = true.
Proof. now apply eqb_eq. Qed.

Lemma stripPrefix_app (p s : jsstring) : stripPrefix p (p ++ s) = Some s.
Proof.
  induction p as [|a p IH]; simpl.
  - now destruct s.
  - now rewrite N.eqb_refl.
Qed.

Lemma stripPrefix_Some (p s r : jsstring) : stripPrefix p s = Some r -> s = p ++ r.
Proof.
  revert s; induction p as [|a p IH]; intros s H.
  - destruct s; simpl in H; now injection H as <-.
  - destruct s as [|b s]; simpl in H; [discriminate|].
    destruct (N.eqb_spec a b) as [->|]; [|discriminate].
    simpl. f_equal. now apply IH.
Qed.

Lemma startsWith_app (p s : jsstring) : startsWith (p ++ s) p = true.
Proof. unfold startsWith. now rewrite stripPrefix_app. Qed.

Lemma startsWith_prefix (s p q : jsstring) :
  startsWith s (p ++ q) = true -> startsWith s p = true.
Proof.
  unfold startsWith.
  destruct (stripPrefix (p ++ q) s) as [r|] eqn:E; [|discriminate].
  intros _. apply stripPrefix_Some in E. subst s.
  now rewrite <- app_assoc, stripPrefix_app.
Qed.

Lemma includes_cons (c : char16) (s sub : jsstring) :
  includes s sub = true -> includes (c :: s) sub = true.
Proof. intros H. simpl. rewrite H. apply orb_true_r. Qed.

Lemma includes_app_l (a s sub : jsstring) :
  includes s sub = true -> includes (a ++ s) sub = true.
Proof. induction a; simpl app; auto using includes_cons. Qed.

Lemma includes_startsWith (s sub : jsstring) :
  startsWith s sub = true -> includes s sub = true.
Proof. intros H. destruct s; simpl; rewrite H; reflexivity. Qed.

(** A text includes each of its infixes. *)
Lemma includes_infix (a b c : jsstring) : includes (a ++ b ++ c) b = true.
Proof. apply includes_app_l, includes_startsWith, startsWith_app. Qed.

(** Whoever includes a text includes each prefix of it. *)
Lemma includes_prefix (s p q : jsstring) :
  includes s (p ++ q) = true -> includes s p = true.
Proof.
  induction s as [|c s IH]; simpl; intros H.
  - rewrite orb_false_r in *. eauto using startsWith_prefix.
  - apply orb_true_iff in H as [H|H].
    + erewrite startsWith_prefix; eauto.
    + rewrite IH by assumption. apply orb_true_r.
Qed.

Ltac split_bool :=
  repeat match goal with
         | H : _ || _ = true |- _ => apply orb_true_iff in H; destruct H as [H|H]
         | H : _ && _ = true |- _ => apply andb_true_iff in H; destruct H
         | H : (_ <=? _)%N = true |- _ => apply N.leb_le in H
         | H : (_ =? _)%N = true |- _ => apply N.eqb_eq in H
         end.

Lemma isWord_not_space (c : char16) : isWord c = true -> isSpace c = false.
Proof.
  unfold isWord, isSpace. intros H. apply not_true_is_false. intros G.
  split_bool; lia.
Qed.

Lemma isSpace_not_word (c : char16) : isSpace c = true -> isWord c = false.
Proof.
  intros H. destruct (isWord c) eqn:E; [|reflexivity].
  apply isWord_not_space in E. congruence.
Qed.

Lemma span_app (p : char16 -> bool) (a b : jsstring) :
  forallb p a = true ->
  match b with [] => True | c :: _ => p c = false end ->
  span p (a ++ b) = (a, b).
Proof.
  intros Ha Hb. induction a as [|x a IH]; simpl in *.
  - destruct b as [|c b]; [reflexivity|]. simpl. now rewrite Hb.
  - apply andb_true_iff in Ha as [Hx Ha]. rewrite Hx, IH by assumption. reflexivity.
Qed.

Lemma span_spec (p : char16 -> bool) (s a b : jsstring) :
  span p s = (a, b) ->
  s = a ++ b /\ forallb p a = true /\
  match b with [] => True | c :: _ => p c = false end.
Proof.
  revert a b; induction s as [|c s IH]; simpl; intros a b H.
  - injection H as <- <-. auto.
  - destruct (p c) eqn:Hc.
    + destruct (span p s) as [a' b'] eqn:E. injection H as <- <-.
      destruct (IH _ _ eq_refl) as (-> & Ha & Hb). simpl. rewrite Hc. auto.
    + injection H as <- <-. simpl. rewrite Hc. auto.
Qed.

Lemma dropWhile_head (p : char16 -> bool) (s : jsstring) :
  match dropWhile p s with [] => True | c :: _ => p c = false end.
Proof.
  induction s as [|c s IH]; simpl; [exact I|].
  destruct (p c) eqn:E; [assumption|]. exact E.
Qed.

Lemma dropWhile_snoc (p : char16 -> bool) (s : jsstring) (c : char16) :
  p c = false -> dropWhile p (s ++ [c]) = dropWhile p s ++ [c].
Proof.
  intros Hc. induction s as [|d s IH]; simpl.
  - now rewrite Hc.
  - destruct (p d); [assumption | reflexivity].
Qed.

(** A trimmed string is empty or starts with a code unit that is not white space. *)
Lemma trim_head (s : jsstring) :
  match trim s with [] => True | c :: _ => isSpace c = false end.
Proof.
  unfold trim. pose proof (dropWhile_head isSpace s) as H.
  destruct (dropWhile isSpace s) as [|c t]; simpl; [exact I|].
  rewrite dropWhile_snoc, rev_app_distr by assumption. simpl. exact H.
Qed.

(** So the test [trimmed.startsWith(' ')] of the analyzer never holds. *)
Lemma trim_not_indented (s : jsstring) : startsWith (trim s) (lit " ") = false.
Proof.
  pose proof (trim_head s) as H. destruct (trim s) as [|c t]; [reflexivity|].
  unfold startsWith.
  change (stripPrefix (lit " ") (c :: t))
    with (if (32 =? c)%N then stripPrefix [] t else None).
  destruct (N.eqb_spec 32 c) as [<-|]; [discriminate|reflexivity].
Qed.

End JsStringFacts.

Import JsStringFacts.

(** * Facts about the definition scanner *)

Module ScannerFacts.

(** ** The matchers and the languages of their expressions

    The matchers take the longest run at each quantifier.  The next lemmas
    show that nothing is lost: a text that starts with a word of the
    language of the expression is matched, with that word, and a match is
    such a word. *)

Lemma matchDefAt_complete (ws name ws' rest : jsstring) :
  nonEmpty ws && forallb isSpace ws = true ->
  nonEmpty name && forallb isWord name = true ->
  forallb isSpace ws' = true ->
  matchDefAt (lit "def" ++ ws ++ name ++ ws' ++ ch "(" :: rest)
  = Some (name, lit "def" ++ ws ++ name ++ ws' ++ [ch "("], rest).
Proof.
  intros Hws Hname Hws'.
  apply andb_true_iff in Hws as [Hw1 Hw2]. apply andb_true_iff in Hname as [Hn1 Hn2].
  unfold matchDefAt. rewrite stripPrefix_app.
  rewrite (span_app isSpace ws (name ++ ws' ++ ch "(" :: rest)).
  - rewrite (span_app isWord name (ws' ++ ch "(" :: rest)).
    + rewrite (span_app isSpace ws' (ch "(" :: rest)) by (assumption || reflexivity).
      destruct ws; [discriminate|]. destruct name; [discriminate|]. reflexivity.
    + assumption.
    + destruct ws' as [|c w]; [reflexivity|]. simpl in *.
      apply andb_true_iff in Hws' as [Hc _]. now apply isSpace_not_word.
  - assumption.
  - destruct name as [|c n]; [discriminate|]. simpl in *.
    apply andb_true_iff in Hn2 as [Hc _]. now apply isWord_not_space.
Qed.

Lemma matchDefAt_sound (s name m rest : jsstring) :
  matchDefAt s = Some (name, m, rest) ->
  exists ws ws',
    m = lit "def" ++ ws ++ name ++ ws' ++ [ch "("] /\ s = m ++ rest
    /\ nonEmpty ws && forallb isSpace ws = true
    /\ nonEmpty name && forallb isWord name = true
    /\ forallb isSpace ws' = true.
Proof.
  unfold matchDefAt. intros H.
  destruct (stripPrefix (lit "def") s) as [s1|] eqn:E0; [|discriminate].
  apply stripPrefix_Some in E0.
  destruct (span isSpace s1) as [ws s2] eqn:E1.
  apply span_spec in E1 as (-> & Hws & _).
  destruct ws as [|w ws]; [discriminate|].
  destruct (span isWord s2) as [nm s3] eqn:E2.
  apply span_spec in E2 as (-> & Hnm & _).
  destruct nm as [|c nm]; [discriminate|].
  destruct (span isSpace s3) as [ws' s4] eqn:E3.
  apply span_spec in E3 as (-> & Hws' & _).
  destruct s4 as [|p s5]; [discriminate|].
  destruct (N.eqb_spec p (ch "(")) as [->|]; [|discriminate].
  injection H as <- <- <-.
  exists (w :: ws), ws'. repeat split; try assumption.
  subst s. now repeat (rewrite <- app_assoc || rewrite <- app_comm_cons).
Qed.

(** The lazy tail is the shortest text after which the lookahead holds. *)
Lemma lazyBody_shortest (s : jsstring) :
  exists r,
    s = lazyBody s ++ r /\ bodyEnds r = true
    /\ forall k, k < List.length (lazyBody s) -> bodyEnds (skipn k s) = false.
Proof.
  induction s as [|c s (r & Hs & Hr & Hmin)].
  - exists []. repeat split. simpl. intros k Hk. lia.
  - cbn [lazyBody].
    destruct (startsWith (c :: s) (nl ++ lit "def")
              || startsWith (c :: s) (nl ++ lit "class")) eqn:E.
    + exists (c :: s). repeat split; [exact E|]. simpl. intros k Hk. lia.
    + exists r. split; [simpl; now f_equal|]. split; [assumption|].
      intros [|k] Hk; [exact E|]. apply Hmin. simpl in Hk. lia.
Qed.

Lemma matchFuncAt_complete (name ws ws' params rest : jsstring) :
  nonEmpty ws && forallb isSpace ws = true ->
  nonEmpty name && forallb isWord name = true ->
  forallb isSpace ws' = true ->
  forallb (fun c => negb (c =? ch ")")%N) params = true ->
  matchFuncAt name
    (lit "def" ++ ws ++ name ++ ws' ++ ch "(" :: params ++ lit "):" ++ rest)
  = Some (lit "def" ++ ws ++ name ++ ws' ++ [ch "("] ++ params ++ lit "):"
            ++ lazyBody rest).
Proof.
  intros Hws Hname Hws' Hp.
  apply andb_true_iff in Hws as [Hw1 Hw2]. apply andb_true_iff in Hname as [Hn1 Hn2].
  unfold matchFuncAt. rewrite stripPrefix_app.
  rewrite (span_app isSpace ws (name ++ ws' ++ ch "(" :: params ++ lit "):" ++ rest)).
  - rewrite stripPrefix_app.
    rewrite (span_app isSpace ws' (ch "(" :: params ++ lit "):" ++ rest))
      by (assumption || reflexivity).
    change ((ch "(" =? ch "(")%N) with true. cbv iota.
    rewrite (span_app _ params (lit "):" ++ rest)) by (assumption || reflexivity).
    destruct ws; [discriminate|]. reflexivity.
  - assumption.
  - destruct name as [|c n]; [discriminate|]. simpl in *.
    apply andb_true_iff in Hn2 as [Hc _]. now apply isWord_not_space.
Qed.

Lemma matchFuncAt_sound (name s m : jsstring) :
  matchFuncAt name s = Some m ->
  exists ws ws' params rest,
    s = lit "def" ++ ws ++ name ++ ws' ++ ch "(" :: params ++ lit "):" ++ rest
    /\ m = lit "def" ++ ws ++ name ++ ws' ++ [ch "("] ++ params ++ lit "):"
             ++ lazyBody rest
    /\ nonEmpty ws && forallb isSpace ws = true
    /\ forallb isSpace ws' = true
    /\ forallb (fun c => negb (c =? ch ")")%N) params = true.
Proof.
  unfold matchFuncAt. intros H.
  destruct (stripPrefix (lit "def") s) as [s1|] eqn:E0; [|discriminate].
  apply stripPrefix_Some in E0.
  destruct (span isSpace s1) as [ws s2] eqn:E1.
  apply span_spec in E1 as (-> & Hws & _).
  destruct ws as [|w ws]; [discriminate|].
  destruct (stripPrefix name s2) as [s3|] eqn:E2; [|discriminate].
  apply stripPrefix_Some in E2. subst s2.
  destruct (span isSpace s3) as [ws' s4] eqn:E3.
  apply span_spec in E3 as (-> & Hws' & _).
  destruct s4 as [|p s5]; [discriminate|].
  destruct (N.eqb_spec p (ch "(")) as [->|]; [|discriminate].
  destruct (span (fun x => negb (x =? ch ")")%N) s5) as [params s6] eqn:E4.
  apply span_spec in E4 as (-> & Hp & _).
  destruct s6 as [|a [|b s7]]; try discriminate.
  destruct (N.eqb_spec a (ch ")")) as [->|]; [|discriminate].
  destruct (N.eqb_spec b (ch ":")) as [->|]; [|discriminate].
  injection H as <-.
  exists (w :: ws), ws', params, s7. repeat split; try assumption.
Qed.


Section Header.

Variables ws name params : jsstring.
Hypothesis ok : headerOk ws name params = true.

Lemma ok_parts :
  nonEmpty ws && forallb isSpace ws = true
  /\ nonEmpty name && forallb isWord name = true
  /\ forallb (fun c => negb (c =? ch ")")%N) params = true.
Proof.
  unfold headerOk in ok. repeat (apply andb_true_iff in ok as [ok ?]).
  repeat split; try assumption; now apply andb_true_iff.
Qed.

(** The definition expression matches such a header up to its parenthesis. *)
Lemma matchDefAt_header (tail : jsstring) :
  matchDefAt (lit "def" ++ ws ++ name ++ ch "(" :: tail)
  = Some (name, lit "def" ++ ws ++ name ++ [ch "("], tail).
Proof.
  destruct ok_parts as (Hws & Hname & _).
  exact (matchDefAt_complete ws name [] tail Hws Hname eq_refl).
Qed.

(** Replacing the match by its capture leaves the name. *)
Lemma replaceDef_header :
  replaceDef (lit "def" ++ ws ++ name ++ [ch "("]) = name.
Proof.
  change (lit "def" ++ ws ++ name ++ [ch "("])
    with (ch "d" :: ch "e" :: ch "f" :: ws ++ name ++ [ch "("]).
  cbn [replaceDef].
  change (ch "d" :: ch "e" :: ch "f" :: ws ++ name ++ [ch "("])
    with (lit "def" ++ ws ++ name ++ ch "(" :: []).
  rewrite matchDefAt_header. apply app_nil_r.
Qed.

(** The function expression built for the name matches the whole header
    and the lazy tail after it. *)
Lemma matchFuncAt_header (rest : jsstring) :
  matchFuncAt name (defHeader ws name params ++ rest)
  = Some (functionText ws name params rest).
Proof.
  destruct ok_parts as (Hws & Hname & Hp).
  unfold functionText, defHeader. rewrite <- !app_assoc.
  exact (matchFuncAt_complete name ws [] params rest Hws Hname eq_refl Hp).
Qed.

End Header.

(** Where the function expression of a name matches, the definition
    expression matches too. *)
Lemma matchFuncAt_matchDefAt (name s m : jsstring) :
  nonEmpty name && forallb isWord name = true ->
  matchFuncAt name s = Some m -> matchDefAt s <> None.
Proof.
  intros Hname H. apply andb_true_iff in Hname as [Hne Hw].
  unfold matchFuncAt in H. unfold matchDefAt.
  destruct (stripPrefix (lit "def") s) as [s1|]; [|discriminate].
  destruct (span isSpace s1) as [ws s2]. destruct ws as [|w ws]; [discriminate|].
  destruct (stripPrefix name s2) as [s3|] eqn:E2; [|discriminate].
  apply stripPrefix_Some in E2. subst s2.
  destruct (span isSpace s3) as [ws' s4] eqn:E3.
  destruct s4 as [|c s5]; [discriminate|].
  destruct (N.eqb_spec c (ch "(")) as [->|]; [|discriminate].
  assert (Hs : span isWord (name ++ s3) = (name, s3)).
  { apply span_app; [assumption|].
    apply span_spec in E3 as (-> & Hws & _).
    destruct ws' as [|x ws']; simpl in *; [reflexivity|].
    apply andb_true_iff in Hws as [Hx _]. now apply isSpace_not_word. }
  rewrite Hs. destruct name; [discriminate|]. rewrite E3.
  change ((ch "(" =? ch "(")%N) with true. cbv iota. discriminate.
Qed.

Section Prefix.

Variables pre s : jsstring.
Hypothesis clean : noDefIn (List.length pre) (pre ++ s) = true.

(** The scan passes a prefix in which no definition starts. *)
Lemma matchAllDefFrom_prefix : matchAllDefFrom 0 (pre ++ s) = matchAllDefFrom 0 s.
Proof.
  revert clean. induction pre as [|c p IH]; [reflexivity|].
  cbn [List.length app noDefIn matchAllDefFrom].
  destruct (matchDefAt (c :: p ++ s)); [discriminate|]. exact IH.
Qed.

Lemma matchFunc_prefix (name : jsstring) :
  nonEmpty name && forallb isWord name = true ->
  matchFunc name (pre ++ s) = matchFunc name s.
Proof.
  intros Hname. revert clean. induction pre as [|c p IH]; [reflexivity|].
  cbn [List.length app noDefIn matchFunc].
  destruct (matchDefAt (c :: p ++ s)) eqn:E; [discriminate|].
  destruct (matchFuncAt name (c :: p ++ s)) eqn:F.
  - exfalso. eapply matchFuncAt_matchDefAt; eauto.
  - exact IH.
Qed.

End Prefix.

Lemma headerOk_name (ws name params : jsstring) :
  headerOk ws name params = true -> nonEmpty name && forallb isWord name = true.
Proof.
  unfold headerOk. intros H. repeat (apply andb_true_iff in H as [H ?]).
  now apply andb_true_iff.
Qed.

(** What the analyzer of recursion sees when the first definition of the
    input has a header of the expected form: its name is the first one
    tried, and the text tried for it is that first definition. *)
Lemma first_definition (pre ws name params rest : jsstring) :
  let code := pre ++ defHeader ws name params ++ rest in
  headerOk ws name params = true ->
  noDefIn (List.length pre) code = true ->
  (exists others, analyzeRecursion code = recursionLoop code (name :: others))
  /\ matchFunc name code = Some (functionText ws name params rest).
Proof.
  intros code Hok Hclean. subst code. split.
  - unfold analyzeRecursion, matchAllDef.
    rewrite matchAllDefFrom_prefix by assumption.
    assert (E : defHeader ws name params ++ rest
                = lit "def" ++ ws ++ name ++ ch "(" :: params ++ lit "):" ++ rest).
    { unfold defHeader. now repeat rewrite <- app_assoc. }
    rewrite E.
    change (lit "def" ++ ws ++ name ++ ch "(" :: params ++ lit "):" ++ rest)
      with (ch "d" :: (ch "e" :: ch "f" :: ws ++ name ++ ch "(" :: params ++ lit "):" ++ rest)).
    cbn [matchAllDefFrom].
    change (ch "d" :: (ch "e" :: ch "f" :: ws ++ name ++ ch "(" :: params ++ lit "):" ++ rest))
      with (lit "def" ++ ws ++ name ++ ch "(" :: params ++ lit "):" ++ rest).
    rewrite (matchDefAt_header _ _ _ Hok).
    unfold functionNames. cbn [map]. rewrite (replaceDef_header _ _ _ Hok).
    eexists. reflexivity.
  - rewrite matchFunc_prefix by eauto using headerOk_name.
    assert (E : matchFuncAt name (defHeader ws name params ++ rest)
                = Some (functionText ws name params rest))
      by now apply matchFuncAt_header.
    destruct (defHeader ws name params ++ rest); cbn [matchFunc]; now rewrite E.
Qed.

(** The text of a function holds its own name followed by the opening
    parenthesis: they stand in its header. *)
Lemma functionText_header (ws name params rest : jsstring) :
  includes (functionText ws name params rest) (name ++ lit "(") = true.
Proof.
  unfold functionText, defHeader. rewrite <- !app_assoc.
  apply includes_app_l, includes_app_l.
  rewrite app_assoc. apply includes_startsWith.
  exact (startsWith_app (name ++ lit "(") _).
Qed.

(** It holds whatever its body holds. *)
Lemma functionText_body (ws name params rest sub : jsstring) :
  includes (lazyBody rest) sub = true ->
  includes (functionText ws name params rest) sub = true.
Proof.
  intros H. unfold functionText. now apply includes_app_l.
Qed.

(** Once the self-call test passes for the name tried first, one of the
    three returns of the loop body is taken. *)
Lemma recursionLoop_first (code name m : jsstring) (others : list jsstring) :
  matchFunc name code = Some m ->
  includes m (name ++ lit "(") = true ->
  let r := recursionLoop code (name :: others) in
  hasRecursion r = true /\
  (type r = lit "fibonacci" \/ type r = lit "factorial" \/ type r = lit "linear").
Proof.
  intros Hm Hcall. cbn [recursionLoop]. rewrite Hm, Hcall.
  destruct (_ || _); [simpl; auto|].
  destruct (_ || _); simpl; auto.
Qed.

End ScannerFacts.

(** * Facts about the loop-nesting analyzer *)

Module NestingFacts.

(** What an iteration does to a counter that is not negative: a loop-start
    line increments it, and every other line, indented or not, decrements
    it down to zero. *)
Lemma nestingStep_actual (maxNesting currentNesting : Z) (line : jsstring) :
  (0 <= currentNesting)%Z ->
  nestingStep (maxNesting, currentNesting) line
  = if isLoopStart (trim line)
    then (Z.max maxNesting (currentNesting + 1), (currentNesting + 1)%Z)
    else (maxNesting, Z.max 0 (currentNesting - 1)).
Proof.
  intros Hc. unfold nestingStep.
  destruct (isLoopStart (trim line)); [reflexivity|].
  rewrite trim_not_indented. cbn [negb andb].
  destruct (eqb (trim line) []); cbn [orb]; [reflexivity|].
  destruct (Z.gtb_spec currentNesting 0); [reflexivity|].
  f_equal. lia.
Qed.

Lemma nestingStep_nonneg (st : Z * Z) (line : jsstring) :
  (0 <= fst st)%Z /\ (0 <= snd st)%Z ->
  (0 <= fst (nestingStep st line))%Z /\ (0 <= snd (nestingStep st line))%Z.
Proof.
  destruct st as [m c]. intros [Hm Hc]. cbn [fst snd] in Hm, Hc.
  rewrite nestingStep_actual by assumption.
  destruct (isLoopStart (trim line)); simpl; lia.
Qed.

Lemma fold_nonneg (lines : list jsstring) (st : Z * Z) :
  (0 <= fst st)%Z /\ (0 <= snd st)%Z ->
  (0 <= fst (fold_left nestingStep lines st))%Z
  /\ (0 <= snd (fold_left nestingStep lines st))%Z.
Proof.
  revert st. induction lines as [|l ls IH]; intros st H; [exact H|].
  simpl. apply IH. now apply nestingStep_nonneg.
Qed.

(** The returned depth is never negative. *)
Lemma count_nonneg (code : jsstring) : (0 <= count (analyzeNestedLoops code))%Z.
Proof. unfold analyzeNestedLoops. simpl. apply fold_nonneg. simpl. lia. Qed.

Lemma fold_no_loop (lines : list jsstring) (c : Z) :
  (forall line, In line lines -> isLoopStart (trim line) = false) ->
  (0 <= c)%Z ->
  fst (fold_left nestingStep lines (0, c)%Z) = 0%Z.
Proof.
  revert c. induction lines as [|l ls IH]; intros c Hl Hc; [reflexivity|].
  cbn [fold_left]. rewrite nestingStep_actual by assumption.
  rewrite (Hl l) by now left.
  apply IH; [|lia]. intros line Hin. apply Hl. now right.
Qed.

(** Without a loop-start line the depth is zero. *)
Lemma no_loop_start (code : jsstring) :
  (forall line, In line (splitLines code) -> isLoopStart (trim line) = false) ->
  count (analyzeNestedLoops code) = 0%Z.
Proof. intros H. unfold analyzeNestedLoops. simpl. apply fold_no_loop; [assumption|lia]. Qed.

End NestingFacts.

(** * Facts about the classifier *)

Module ClassifierFacts.

(** The class of the report is settled before the data structures are
    looked at. *)
Lemma complexity_classify (code : jsstring) (nl : NestedLoops) (rc : Recursion)
    (ds : list jsstring) :
  complexity (classify code nl rc ds)
  = v_complexity (bySearch code (bySort code (byRecursionOrLoops nl rc start))).
Proof.
  unfold classify. fold start. cbn [complexity].
  unfold byDataStructures. now destruct (0 <? _)%nat.
Qed.

Lemma analyzeComplexity_classify (code : jsstring) :
  analyzeComplexity code
  = classify code (analyzeNestedLoops code) (analyzeRecursion code)
      (analyzeDataStructures code).
Proof. reflexivity. Qed.

Lemma bySearch_keeps (code c : jsstring) (v : Vars) :
  v_complexity v = c -> eqb c Class.O_1 = false ->
  v_complexity (bySearch code v) = c.
Proof.
  intros Hv Hc. unfold bySearch. destruct (usesListSearch code); [|assumption].
  rewrite Hv, Hc. assumption.
Qed.

Lemma byLoops (nl : NestedLoops) (rc : Recursion) :
  hasRecursion rc = false ->
  v_complexity (byRecursionOrLoops nl rc start) = loopClass (count nl).
Proof.
  intros H. unfold byRecursionOrLoops, loopClass. rewrite H.
  destruct (count nl >=? 3)%Z; [reflexivity|].
  destruct (count nl =? 2)%Z; [reflexivity|].
  destruct (count nl =? 1)%Z; reflexivity.
Qed.

(** With the self-call test of the analyzer itself, the absence of every
    signal leaves the default class. *)
Lemma no_signal_constant (code : jsstring) :
  (forall line, In line (splitLines code) -> isLoopStart (trim line) = false) ->
  hasRecursion (analyzeRecursion code) = false ->
  usesSort code = false ->
  usesListSearch code = false ->
  complexity (analyzeComplexity code) = Class.O_1.
Proof.
  intros Hloops Hrec Hsort Hsearch.
  rewrite analyzeComplexity_classify, complexity_classify.
  unfold bySearch, bySort. rewrite Hsearch, Hsort, byLoops by assumption.
  now rewrite NestingFacts.no_loop_start.
Qed.

End ClassifierFacts.

(** * Facts about the growth-curve generator *)

Module GrowthFacts.

Import Growth.

(** The loop pushes one point for each of the sizes 1 to 10, in this order. *)
Lemma generateComplexityData_map (complexity : jsstring) :
  generateComplexityData complexity = map (pointAt complexity) sizes.
Proof. reflexivity. Qed.

Lemma factorialFuel_pos (fuel : nat) (n : Z) : (1 <= factorialFuel fuel n)%Z.
Proof.
  revert n. induction fuel as [|f IH]; intros n; simpl; [lia|].
  destruct (Z.leb_spec n 1); [lia|]. specialize (IH (n - 1)%Z). nia.
Qed.

Lemma log2_nonneg (r : R) : (1 <= r)%R -> (0 <= log2 r)%R.
Proof.
  intros Hr. unfold log2.
  assert (H2 : (0 < ln 2)%R) by (rewrite <- ln_1; apply ln_increasing; lra).
  assert (Hn : (0 <= ln r)%R).
  { destruct Hr as [Hr | <-]; [|rewrite ln_1; lra].
    left. rewrite <- ln_1. apply ln_increasing; lra. }
  apply Rmult_le_pos; [assumption|]. left. now apply Rinv_0_lt_compat.
Qed.

(** Before the cap, every value is at least zero on the sizes of the loop. *)
Lemma ordinate_nonneg (complexity : jsstring) (n : Z) :
  (1 <= n)%Z -> (0 <= ordinate complexity n)%R.
Proof.
  intros Hn. assert (Hr : (1 <= IZR n)%R) by now apply IZR_le.
  unfold ordinate.
  repeat match goal with |- context [if ?b then _ else _] => destruct b end.
  - lra.
  - now apply log2_nonneg.
  - lra.
  - apply Rmult_le_pos; [lra | now apply log2_nonneg].
  - apply IZR_le. nia.
  - apply IZR_le. nia.
  - apply IZR_le. apply Z.pow_nonneg. lia.
  - apply IZR_le. pose proof (factorialFuel_pos (Z.to_nat (Z.min n 6)) (Z.min n 6)).
    unfold factorial. lia.
  - lra.
Qed.

Lemma capped (complexity : jsstring) (n : Z) :
  (1 <= n)%Z -> (0 <= y (pointAt complexity n) <= 1000)%R.
Proof.
  intros Hn. cbn [y pointAt]. split.
  - apply Rmin_glb; [now apply ordinate_nonneg | lra].
  - apply Rmin_r.
Qed.

Lemma Rmin_small (a : R) : (a <= 1000)%R -> Rmin a 1000 = a.
Proof. intros H. now apply Rmin_left. Qed.

End GrowthFacts.

(** * Facts about the order of the definitions *)

Module OrderFacts.

Import ScannerFacts.

(** A text that starts with a code unit that is not white space does not
    start inside a run of white space. *)
Lemma space_run (W p s V : jsstring) :
  forallb isSpace W = true ->
  match s with [] => False | c :: _ => isSpace c = false end ->
  p ++ s = W ++ V ->
  exists p', p = W ++ p' /\ p' ++ s = V.
Proof.
  intros HW Hs. revert p. induction W as [|w W IH]; intros p E.
  - now exists p.
  - cbn [forallb] in HW. apply andb_true_iff in HW as [Hw HW].
    destruct p as [|c p].
    + cbn [app] in E. destruct s as [|c s]; [contradiction|].
      injection E as -> _. congruence.
    + cbn [app] in E. injection E as -> E.
      destruct (IH HW p E) as (p' & -> & E'). now exists p'.
Qed.

Section Boundary.

Variables ws name tail : jsstring.
Hypothesis ws_ok : nonEmpty ws && forallb isSpace ws = true.
Hypothesis name_ok : nonEmpty name && forallb isWord name = true.

Let s : jsstring := lit "def" ++ ws ++ name ++ tail.

Lemma s_head : match s with [] => False | c :: _ => isSpace c = false end.
Proof. reflexivity. Qed.

Lemma s_word_run : span isWord s = (lit "def", ws ++ name ++ tail).
Proof.
  apply andb_true_iff in ws_ok as [Hn Hw].
  apply (span_app isWord (lit "def")); [reflexivity|].
  destruct ws as [|w W]; [discriminate|]. cbn [app forallb] in *.
  apply andb_true_iff in Hw as [Hw _]. now apply isSpace_not_word.
Qed.

Lemma s_space_run : span isSpace (ws ++ name ++ tail) = (ws, name ++ tail).
Proof.
  apply andb_true_iff in ws_ok as [_ Hw]. apply andb_true_iff in name_ok as [Hn Hname].
  apply span_app; [assumption|].
  destruct name as [|c n]; [discriminate|]. cbn [app forallb] in *.
  apply andb_true_iff in Hname as [Hc _]. now apply isWord_not_space.
Qed.

(** A match of the definition expression that starts before a definition
    ends before it. *)
Lemma no_overlap (p n1 m r : jsstring) :
  p <> [] ->
  matchDefAt (p ++ s) = Some (n1, m, r) ->
  exists q, p = m ++ q.
Proof.
  intros Hp H.
  apply matchDefAt_sound in H as (ws1 & ws1' & -> & E & Hws1 & Hn1 & Hws1').
  apply andb_true_iff in Hws1 as [_ Hws1]. apply andb_true_iff in Hn1 as [_ Hn1].
  repeat rewrite <- app_assoc in E.
  change (lit "def" ++ ws1 ++ n1 ++ ws1' ++ [ch "("] ++ r)
    with (ch "d" :: ch "e" :: ch "f" :: ws1 ++ n1 ++ ws1' ++ ch "(" :: r) in E.
  pose proof s_head as Hs.
  destruct p as [|c1 [|c2 [|c3 p3]]]; [congruence| | |].
  - exfalso. cbn [app] in E. injection E as _ E. unfold s in E. discriminate E.
  - exfalso. cbn [app] in E. injection E as _ _ E. unfold s in E. discriminate E.
  - cbn [app] in E. injection E as -> -> -> E.
    destruct (@space_run ws1 p3 s _ Hws1 Hs E) as (p4 & -> & E4).
    apply app_eq_app in E4 as (l & [[-> E5] | [E5 E6]]).
    + symmetry in E5.
      destruct (@space_run ws1' l s _ Hws1' Hs E5) as (l' & -> & E7).
      destruct l' as [|c l''].
      * exfalso. cbn [app] in E7. unfold s in E7. discriminate E7.
      * cbn [app] in E7. injection E7 as -> _. exists l''.
        repeat (rewrite <- app_assoc || rewrite <- app_comm_cons). reflexivity.
    + exfalso. destruct l as [|x l].
      * cbn [app] in E6. destruct ws1' as [|w W].
        -- unfold s in E6. discriminate E6.
        -- cbn [forallb] in Hws1'. apply andb_true_iff in Hws1' as [Hw _].
           unfold s in E6. cbn [app] in E6. injection E6 as <- _. discriminate Hw.
      * assert (Hl : forallb isWord (x :: l) = true).
        { rewrite E5, forallb_app in Hn1. now apply andb_true_iff in Hn1 as [_ ?]. }
        assert (R1 : span isWord s = (x :: l, ws1' ++ ch "(" :: r)).
        { rewrite E6. apply span_app; [assumption|].
          destruct ws1' as [|w W]; [reflexivity|]. cbn [forallb] in Hws1'.
          apply andb_true_iff in Hws1' as [Hw _]. now apply isSpace_not_word. }
        rewrite s_word_run in R1. injection R1 as _ _ R2.
        assert (R3 : span isSpace (ws ++ name ++ tail) = (ws1', ch "(" :: r)).
        { rewrite R2. apply span_app; [assumption | reflexivity]. }
        rewrite s_space_run in R3. injection R3 as _ R4.
        apply andb_true_iff in name_ok as [Hn Hname].
        destruct name as [|c n]; [discriminate|]. cbn [app forallb] in *.
        injection R4 as -> _. discriminate Hname.
Qed.

(** The scan of a code that holds a definition: the matches that start
    before the definition, then the scan from the definition on. *)
Lemma scan_split (pre : jsstring) (skip : nat) :
  skip <= List.length pre ->
  matchAllDefFrom skip (pre ++ s)
  = matchesBefore (List.length pre) skip (pre ++ s) ++ matchAllDefFrom 0 s.
Proof.
  revert skip. induction pre as [|c p IH]; intros skip Hk.
  - cbn [List.length] in Hk. assert (skip = 0) by lia. subst skip. reflexivity.
  - cbn [List.length app matchAllDefFrom matchesBefore].
    destruct skip as [|j]; [|apply IH; cbn [List.length] in Hk; lia].
    destruct (matchDefAt (c :: p ++ s)) as [[[n1 m] r]|] eqn:E.
    + change (c :: p ++ s) with ((c :: p) ++ s) in E.
      assert (Hne : c :: p <> []) by discriminate.
      destruct (@no_overlap (c :: p) n1 m r Hne E) as [q Hq].
      cbn [app]. f_equal. apply IH.
      apply (f_equal (@List.length _)) in Hq.
      rewrite length_app in Hq. cbn [List.length] in Hq. lia.
    + apply IH. lia.
Qed.

End Boundary.

(** The loop over the names stops at the first name for which it returns. *)
Lemma recursionLoop_app (code : jsstring) (earlier later : list jsstring) :
  recursionLoop code (earlier ++ later)
  = if hasRecursion (recursionLoop code earlier)
    then recursionLoop code earlier
    else recursionLoop code later.
Proof.
  induction earlier as [|g earlier IH]; [reflexivity|].
  cbn [app recursionLoop].
  destruct (matchFunc g code); [|exact IH].
  destruct (includes _ (g ++ lit "(")); [|exact IH].
  destruct (_ || _); [reflexivity|].
  destruct (_ || _); reflexivity.
Qed.

(** When the loop reports recursion, the type is one of three. *)
Lemma recursionLoop_type (code : jsstring) (names : list jsstring) :
  hasRecursion (recursionLoop code names) = true ->
  recursionLoop code names = recursionOf (lit "fibonacci")
  \/ recursionLoop code names = recursionOf (lit "factorial")
  \/ recursionLoop code names = recursionOf (lit "linear").
Proof.
  induction names as [|g names IH]; [discriminate|].
  cbn [recursionLoop].
  destruct (matchFunc g code); [|exact IH].
  destruct (includes _ (g ++ lit "(")); [|exact IH].
  destruct (_ || _); [now left|].
  destruct (_ || _); [right; now left | right; now right].
Qed.

Lemma matchFunc_skip (name pre s : jsstring) :
  noFuncIn name (List.length pre) (pre ++ s) = true ->
  matchFunc name (pre ++ s) = matchFunc name s.
Proof.
  induction pre as [|c p IH]; [reflexivity|].
  cbn [List.length app noFuncIn matchFunc].
  destruct (matchFuncAt name (c :: p ++ s)); [discriminate|]. exact IH.
Qed.

Lemma headerOkWith_parts (ws name ws' params : jsstring) :
  headerOkWith ws name ws' params = true ->
  nonEmpty ws && forallb isSpace ws = true
  /\ nonEmpty name && forallb isWord name = true
  /\ forallb isSpace ws' = true
  /\ forallb (fun c => negb (c =? ch ")")%N) params = true.
Proof.
  unfold headerOkWith. intros H. apply andb_true_iff in H as [H Hw'].
  destruct (@ok_parts _ _ _ H) as (A & B & C). auto.
Qed.

(** The scan finds a definition that it reaches. *)
Lemma scan_head (ws name ws' tail : jsstring) :
  nonEmpty ws && forallb isSpace ws = true ->
  nonEmpty name && forallb isWord name = true ->
  forallb isSpace ws' = true ->
  exists ms,
    matchAllDefFrom 0 (lit "def" ++ ws ++ name ++ ws' ++ ch "(" :: tail)
    = (lit "def" ++ ws ++ name ++ ws' ++ [ch "("]) :: ms.
Proof.
  intros Hws Hname Hws'.
  change (lit "def" ++ ws ++ name ++ ws' ++ ch "(" :: tail)
    with (ch "d" :: (ch "e" :: ch "f" :: ws ++ name ++ ws' ++ ch "(" :: tail)).
  cbn [matchAllDefFrom].
  change (ch "d" :: (ch "e" :: ch "f" :: ws ++ name ++ ws' ++ ch "(" :: tail))
    with (lit "def" ++ ws ++ name ++ ws' ++ ch "(" :: tail).
  rewrite (@matchDefAt_complete ws name ws' tail Hws Hname Hws').
  eexists. reflexivity.
Qed.

(** What the analyzer sees of a definition with a well-formed header that
    is the first one the function expression of its name matches: the names
    of the definitions before it are tried first, then its own name, and
    the text tried for it is its own. *)
Lemma definition_found (pre ws name ws' params rest : jsstring) :
  let code := pre ++ defHeaderWith ws name ws' params ++ rest in
  headerOkWith ws name ws' params = true ->
  noFuncIn name (List.length pre) code = true ->
  (exists others,
     analyzeRecursion code
     = recursionLoop code (namesBefore (List.length pre) code ++ name :: others))
  /\ matchFunc name code
     = Some (defHeaderWith ws name ws' params ++ lazyBody rest).
Proof.
  intros code Hok Hfirst.
  destruct (@headerOkWith_parts _ _ _ _ Hok) as (Hws & Hname & Hws' & Hp).
  assert (E : defHeaderWith ws name ws' params ++ rest
              = lit "def" ++ ws ++ name
                  ++ (ws' ++ ch "(" :: params ++ lit "):" ++ rest)).
  { unfold defHeaderWith. now repeat rewrite <- app_assoc. }
  split.
  - unfold analyzeRecursion, matchAllDef, namesBefore. subst code. rewrite E.
    rewrite (@scan_split ws name (ws' ++ ch "(" :: params ++ lit "):" ++ rest)
               Hws Hname pre 0 (Nat.le_0_l _)).
    destruct (@scan_head ws name ws' (params ++ lit "):" ++ rest) Hws Hname Hws')
      as [ms ->].
    set (before := matchesBefore _ _ _).
    destruct (before ++ (lit "def" ++ ws ++ name ++ ws' ++ [ch "("]) :: ms) eqn:N;
      [destruct before; discriminate N|].
    rewrite <- N. unfold functionNames. rewrite map_app. cbn [map].
    assert (R : replaceDef (lit "def" ++ ws ++ name ++ ws' ++ [ch "("]) = name).
    { change (lit "def" ++ ws ++ name ++ ws' ++ [ch "("])
        with (ch "d" :: ch "e" :: ch "f" :: ws ++ name ++ ws' ++ [ch "("]).
      cbn [replaceDef].
      change (ch "d" :: ch "e" :: ch "f" :: ws ++ name ++ ws' ++ [ch "("])
        with (lit "def" ++ ws ++ name ++ ws' ++ ch "(" :: []).
      rewrite (@matchDefAt_complete ws name ws' [] Hws Hname Hws'). apply app_nil_r. }
    rewrite R. eexists. reflexivity.
  - subst code. rewrite matchFunc_skip by assumption.
    assert (F : matchFuncAt name (defHeaderWith ws name ws' params ++ rest)
                = Some (defHeaderWith ws name ws' params ++ lazyBody rest)).
    { unfold defHeaderWith. repeat rewrite <- app_assoc.
      exact (@matchFuncAt_complete name ws ws' params rest Hws Hname Hws' Hp). }
    destruct (defHeaderWith ws name ws' params ++ rest); cbn [matchFunc]; now rewrite F.
Qed.

End OrderFacts.

(** * The scenarios of the specification *)

Module Scenarios.

Import Inputs.

Example nested_loops_quadratic :
  complexity (analyzeComplexity nested) = Class.O_n2.
Proof. reflexivity. Qed.

Example double_recursion_exponential :
  complexity (analyzeComplexity fib) = Class.O_2n.
Proof. reflexivity. Qed.

Example sort_linearithmic :
  complexity (analyzeComplexity sorted) = Class.O_n_log_n.
Proof. reflexivity. Qed.

Example hello_constant :
  complexity (analyzeComplexity hello) = Class.O_1.
Proof. reflexivity. Qed.

Example single_loop_linear :
  complexity (analyzeComplexity singleLoop) = Class.O_n.
Proof. reflexivity. Qed.

(** The matchers on a text with three definitions: the second has no colon
    after its parenthesis and the third follows a line feed. *)
Example three_definitions :
  option_map functionNames
    (matchAllDef (lit "x def  foo (a): def bar(b) -> int: " ++ nl ++ lit "def baz(c): 1"))
  = Some [lit "foo"; lit "bar"; lit "baz"]
  /\ matchFunc (lit "foo")
       (lit "x def  foo (a): def bar(b) -> int: " ++ nl ++ lit "def baz(c): 1")
     = Some (lit "def  foo (a): def bar(b) -> int: ")
  /\ matchFunc (lit "bar")
       (lit "x def  foo (a): def bar(b) -> int: " ++ nl ++ lit "def baz(c): 1")
     = None.
Proof. vm_compute. repeat split. Qed.

End Scenarios.

(** * The claims *)

Import Inputs ScannerFacts OrderFacts NestingFacts ClassifierFacts Growth GrowthFacts.

(** C1.  The claim: an input without a loop-start line, without a function
    whose body calls itself, without a sort call and without the
    list-membership idiom is classified O(1).  The analyzer does not keep
    it: on [constDef] there is no loop-start line, the body of [f] holds no
    call of [f], there is no sort call and no membership idiom, and yet
    the self-call test succeeds on the header "def f(n):" itself, so the
    report says "Linear recursion detected" and the class is O(n). *)
Theorem constant_function_classified_linear :
  forallb (fun line => negb (isLoopStart (trim line))) (splitLines constDef) = true
  /\ includes (lazyBody (nl ++ lit "    return 1")) (lit "f(") = false
  /\ usesSort constDef = false
  /\ usesListSearch constDef = false
  /\ matchFunc (lit "f") constDef = Some constDef
  /\ analyzeRecursion constDef = {| hasRecursion := true; type := lit "linear" |}
  /\ complexity (analyzeComplexity constDef) = Class.O_n
  /\ complexity (analyzeComplexity constDef) <> Class.O_1
  /\ In (lit "Linear recursion detected") (details (analyzeComplexity constDef)).
Proof. vm_compute. repeat split; auto. discriminate. Qed.




(** C3.  When a sort call is detected the class of the report is
    O(n log n), whatever the loop nesting and the recursion analysis gave. *)
Theorem sort_overrides (code : jsstring) :
  usesSort code = true ->
  complexity (analyzeComplexity code) = Class.O_n_log_n
  /\ forall nestedLoops recursion dataStructures,
       complexity (classify code nestedLoops recursion dataStructures)
       = Class.O_n_log_n.
Proof.
  intros Hsort.
  assert (H : forall nestedLoops recursion dataStructures,
             complexity (classify code nestedLoops recursion dataStructures)
             = Class.O_n_log_n).
  { intros nestedLoops recursion dataStructures. rewrite complexity_classify.
    apply bySearch_keeps; [|reflexivity].
    unfold bySort. rewrite Hsort. reflexivity. }
  split; [|exact H]. rewrite analyzeComplexity_classify. apply H.
Qed.

Lemma sort_overrides_witness :
  count (analyzeNestedLoops nestedWithSort) = 2%Z
  /\ usesSort nestedWithSort = true
  /\ complexity (analyzeComplexity nestedWithSort) = Class.O_n_log_n.
Proof.
  split; [reflexivity|]. split; [reflexivity|].
  apply (sort_overrides nestedWithSort). reflexivity.
Defined.

(** C4.  The claim: the counter goes down exactly on a blank line or on a
    line that is not indented.  The analyzer tests the indentation on the
    trimmed line, which never starts with a space, so the counter also goes
    down on an indented statement: on [nestedWithGap] the statement
    between the two loop headers brings it back to zero and the depth is 1,
    where the rule as written gives 2. *)
Theorem indented_line_decrements :
  nestingStep (1, 1)%Z (lit "    x = 1") = (1, 0)%Z
  /\ specNestingStep (1, 1)%Z (lit "    x = 1") = (1, 1)%Z
  /\ count (analyzeNestedLoops nestedWithGap) = 1%Z
  /\ specNestedLoops nestedWithGap = 2%Z
  /\ complexity (analyzeComplexity nestedWithGap) = Class.O_n.
Proof. vm_compute. repeat split. Qed.

(** C5, as claimed, fails: without recursion, sort call and loop, the
    list-membership idiom still moves the class from O(1) to O(n). *)
Lemma depth_zero_not_constant :
  hasRecursion (analyzeRecursion listSearch) = false
  /\ usesSort listSearch = false
  /\ count (analyzeNestedLoops listSearch) = 0%Z
  /\ complexity (analyzeComplexity listSearch) = Class.O_n
  /\ complexity (analyzeComplexity listSearch) <> Class.O_1.
Proof. vm_compute. repeat split. discriminate. Qed.

(** C5, amended.  Without detected recursion and without a sort call the
    class follows the depth of the loop nesting: O(n³) from 3 on, O(n²)
    for 2, O(n) for 1; for 0 it is the default O(1) unless the
    list-membership idiom is present, which gives O(n). *)
Theorem loops_determine_class (code : jsstring) :
  hasRecursion (analyzeRecursion code) = false ->
  usesSort code = false ->
  let depth := count (analyzeNestedLoops code) in
  let class := complexity (analyzeComplexity code) in
  ((3 <= depth)%Z -> class = Class.O_n3)
  /\ (depth = 2%Z -> class = Class.O_n2)
  /\ (depth = 1%Z -> class = Class.O_n)
  /\ (depth = 0%Z -> class = if usesListSearch code then Class.O_n else Class.O_1)
  /\ (0 <= depth)%Z.
Proof.
  intros Hrec Hsort depth class.
  assert (E : class
              = v_complexity (bySearch code
                  {| v_complexity := loopClass depth;
                     v_description := v_description
                       (byRecursionOrLoops (analyzeNestedLoops code)
                          (analyzeRecursion code) start);
                     v_details := v_details
                       (byRecursionOrLoops (analyzeNestedLoops code)
                          (analyzeRecursion code) start) |})).
  { subst class depth. rewrite analyzeComplexity_classify, complexity_classify.
    unfold bySort. rewrite Hsort. rewrite <- (@byLoops (analyzeNestedLoops code) _ Hrec).
    now destruct (byRecursionOrLoops _ _ _). }
  rewrite E. unfold loopClass. repeat split.
  - intros H. apply Z.geb_le in H. rewrite H. now apply bySearch_keeps.
  - intros ->. now apply bySearch_keeps.
  - intros ->. now apply bySearch_keeps.
  - intros ->. unfold bySearch. cbn [v_complexity Z.geb Z.eqb Z.compare].
    now destruct (usesListSearch code).
  - apply count_nonneg.
Qed.

Lemma loops_determine_class_witness :
  hasRecursion (analyzeRecursion nested) = false
  /\ usesSort nested = false
  /\ count (analyzeNestedLoops nested) = 2%Z
  /\ complexity (analyzeComplexity nested) = Class.O_n2.
Proof.
  split; [reflexivity|]. split; [reflexivity|]. split; [reflexivity|].
  apply (loops_determine_class nested); reflexivity.
Defined.

(** C6.  For every string given as class the generator returns ten points,
    for the sizes 1 to 10 in this order; each value is the value of the
    class capped at 1000, the exponent of O(2^n) and the argument of the
    factorial of O(n!) being capped at 6 before; every value lies between 0
    and 1000; the point of O(n²) at size 10 has the value 100 and the point
    of O(2^n) at size 10 the value 64. *)
Theorem growth_curve (complexity : jsstring) :
  map x (generateComplexityData complexity) = [1; 2; 3; 4; 5; 6; 7; 8; 9; 10]%Z
  /\ Forall (fun p => y p = Rmin (ordinate complexity (x p)) 1000
                      /\ (0 <= y p <= 1000)%R)
       (generateComplexityData complexity)
  /\ map (fun n => ordinate Class.O_2n n) sizes
     = map (fun n => IZR (2 ^ Z.min n 6)) sizes
  /\ map (fun n => ordinate Class.O_fact n) sizes
     = map (fun n => IZR (factorial (Z.min n 6))) sizes
  /\ map y (generateComplexityData Class.O_2n)
     = [2; 4; 8; 16; 32; 64; 64; 64; 64; 64]%R
  /\ map y (generateComplexityData Class.O_fact)
     = [1; 2; 6; 24; 120; 720; 720; 720; 720; 720]%R
  /\ nth_error (generateComplexityData Class.O_n2) 9 = Some {| x := 10; y := 100 |}
  /\ nth_error (generateComplexityData Class.O_2n) 9 = Some {| x := 10; y := 64 |}.
Proof.
  rewrite !generateComplexityData_map.
  split; [reflexivity|].
  split.
  { unfold sizes. cbn [map].
    repeat (constructor; [split; [reflexivity | apply capped; lia]|]).
    constructor. }
  split; [reflexivity|]. split; [reflexivity|].
  assert (P : forall n, (1 <= n <= 6)%Z ->
                        y (pointAt Class.O_2n n) = IZR (2 ^ n)).
  { intros n Hn. cbn [y pointAt].
    change (ordinate Class.O_2n n) with (IZR (2 ^ Z.min n 6)).
    rewrite Z.min_l by lia. apply Rmin_small.
    change 1000%R with (IZR 1000). apply IZR_le.
    assert (2 ^ n <= 2 ^ 6)%Z by (apply Z.pow_le_mono_r; lia). simpl in *. lia. }
  assert (Q : forall n, (6 <= n)%Z -> y (pointAt Class.O_2n n) = 64%R).
  { intros n Hn. cbn [y pointAt].
    change (ordinate Class.O_2n n) with (IZR (2 ^ Z.min n 6)).
    rewrite Z.min_r by lia. apply Rmin_small.
    change (2 ^ 6)%Z with 64%Z. lra. }
  assert (F : forall n v, factorial (Z.min n 6) = v -> (v <= 1000)%Z ->
                          y (pointAt Class.O_fact n) = IZR v).
  { intros n v Hv Hle. cbn [y pointAt].
    change (ordinate Class.O_fact n) with (IZR (factorial (Z.min n 6))).
    rewrite Hv. apply Rmin_small. change 1000%R with (IZR 1000). now apply IZR_le. }
  split.
  { unfold sizes. cbn [map].
    rewrite !P by lia. rewrite !Q by lia. reflexivity. }
  split.
  { unfold sizes. cbn [map].
    rewrite (F 1%Z 1%Z), (F 2%Z 2%Z), (F 3%Z 6%Z), (F 4%Z 24%Z), (F 5%Z 120%Z),
      (F 6%Z 720%Z), (F 7%Z 720%Z), (F 8%Z 720%Z), (F 9%Z 720%Z), (F 10%Z 720%Z)
      by (reflexivity || lia).
    reflexivity. }
  split.
  - cbn [nth_error sizes map]. unfold pointAt. do 2 f_equal.
    change (ordinate Class.O_n2 10) with (IZR (10 * 10)).
    change (10 * 10)%Z with 100%Z. apply Rmin_small. lra.
  - cbn [nth_error sizes map]. unfold pointAt. do 2 f_equal.
    exact (Q 10%Z ltac:(lia)).
Qed.

(** C7.  In every report the worst case and the average case are the class
    of the report, on the normal path and on the path through the
    [catch] block, whatever the three calls of the [try] block do. *)
Theorem cases_equal_class
    (callNestedLoops : jsstring -> completion NestedLoops)
    (callRecursion : jsstring -> completion Recursion)
    (callDataStructures : jsstring -> completion (list jsstring))
    (code : jsstring) :
  let report :=
    analyzeComplexityWith callNestedLoops callRecursion callDataStructures code in
  worstCase report = complexity report
  /\ averageCase report = complexity report
  /\ worstCase (analyzeComplexity code) = complexity (analyzeComplexity code)
  /\ averageCase (analyzeComplexity code) = complexity (analyzeComplexity code)
  /\ worstCase catchReport = complexity catchReport
  /\ averageCase catchReport = complexity catchReport.
Proof.
  cbv zeta. unfold analyzeComplexityWith, tryBlock.
  destruct (callNestedLoops code) as [nestedLoops|e];
    [|repeat split; reflexivity].
  destruct (callRecursion code) as [recursion|e];
    [|repeat split; reflexivity].
  destruct (callDataStructures code) as [dataStructures|e];
    repeat split; reflexivity.
Qed.

(** C8, as claimed, fails on the texts of the report: when the first call
    throws, the description and the detail line are not the strings of the
    claim. *)
Lemma sentinel_texts_differ :
  description (analyzeComplexityWith (throwing (lit "TypeError"))
                 (returning analyzeRecursion) (returning analyzeDataStructures) hello)
  <> lit "unable to analyze"
  /\ details (analyzeComplexityWith (throwing (lit "TypeError"))
                (returning analyzeRecursion) (returning analyzeDataStructures) hello)
     <> [lit "code analysis failed"].
Proof. vm_compute. split; discriminate. Qed.

(** C8, amended.  The classifier returns a report on every input and never
    throws: when one of its three calls throws, the exception is caught and
    the report has the class "O(?)" in all four class fields, the
    description "Unable to analyze complexity" and the single detail line
    "Code analysis failed". *)
Theorem exception_gives_sentinel
    (callNestedLoops : jsstring -> completion NestedLoops)
    (callRecursion : jsstring -> completion Recursion)
    (callDataStructures : jsstring -> completion (list jsstring))
    (code : jsstring) :
  someCallThrows callNestedLoops callRecursion callDataStructures code ->
  analyzeComplexityWith callNestedLoops callRecursion callDataStructures code
  = {| complexity := lit "O(?)";
       description := lit "Unable to analyze complexity";
       details := [lit "Code analysis failed"];
       worstCase := lit "O(?)";
       bestCase := lit "O(?)";
       averageCase := lit "O(?)" |}.
Proof.
  unfold someCallThrows, analyzeComplexityWith, tryBlock.
  intros [[e H] | [[e H] | [e H]]]; rewrite H; cbn [bind].
  - reflexivity.
  - now destruct (callNestedLoops code).
  - destruct (callNestedLoops code); [|reflexivity].
    now destruct (callRecursion code).
Qed.

Lemma exception_gives_sentinel_witness :
  someCallThrows (returning analyzeNestedLoops) (throwing (lit "InternalError"))
    (returning analyzeDataStructures) fib
  /\ analyzeComplexityWith (returning analyzeNestedLoops)
       (throwing (lit "InternalError")) (returning analyzeDataStructures) fib
     = catchReport.
Proof.
  assert (H : someCallThrows (returning analyzeNestedLoops)
                (throwing (lit "InternalError")) (returning analyzeDataStructures) fib).
  { right. left. exists (lit "InternalError"). reflexivity. }
  split; [exact H|].
  exact (exception_gives_sentinel H).
Defined.

(** C9, as claimed, fails: the list of details of the report on
    "print('hi')" is not empty. *)
Lemma hello_details_not_empty : details (analyzeComplexity hello) <> [].
Proof. vm_compute. discriminate. Qed.

(** C9, amended.  On "print('hi')" the class is O(1) and the details hold
    one line, which names the tuple: the opening parenthesis of the call
    is taken for one. *)
Theorem hello_report :
  complexity (analyzeComplexity hello) = Class.O_1
  /\ analyzeDataStructures hello = [lit "Tuple"]
  /\ details (analyzeComplexity hello) = [lit "Data structures used: Tuple"].
Proof. vm_compute. repeat split. Qed.




(** * Further properties of the component *)

Unset Implicit Arguments.

(** ** The execution history *)

Module HistoryFacts.

Lemma updateHistory_cons (c : jsstring) (prev : list jsstring) :
  updateHistory c prev = c :: firstn 9 (others c prev).
Proof. reflexivity. Qed.

Lemma neqb_true (a b : jsstring) : negb (eqb a b) = true <-> a <> b.
Proof.
  rewrite negb_true_iff. split.
  - intros H E. apply eqb_eq in E. congruence.
  - intros H. destruct (eqb a b) eqn:E; [|reflexivity].
    apply eqb_eq in E. contradiction.
Qed.

Lemma In_others (c x : jsstring) (prev : list jsstring) :
  In x (others c prev) <-> In x prev /\ x <> c.
Proof. unfold others. rewrite filter_In, neqb_true. reflexivity. Qed.

Lemma others_absent (c : jsstring) (prev : list jsstring) :
  ~ In c prev -> others c prev = prev.
Proof.
  intros H. induction prev as [|a l IH]; [reflexivity|].
  unfold others in *. simpl.
  assert (Ha : negb (eqb a c) = true) by (apply neqb_true; intros ->; apply H; now left).
  rewrite Ha. f_equal. apply IH. intros Hin. apply H. now right.
Qed.

Lemma In_firstn (n : nat) (x : jsstring) (l : list jsstring) :
  In x (firstn n l) -> In x l.
Proof.
  revert l. induction n as [|n IH]; intros [|a l]; simpl; try tauto.
  intros [H|H]; [now left | right; now apply IH].
Qed.

Lemma NoDup_firstn (n : nat) (l : list jsstring) : NoDup l -> NoDup (firstn n l).
Proof.
  revert l. induction n as [|n IH]; intros [|a l] H; simpl; try constructor.
  - inversion_clear H as [|? ? Ha Hl]. intros Hin. apply Ha. eauto using In_firstn.
  - inversion_clear H. now apply IH.
Qed.

(** An update keeps a history free of repetitions. *)
Lemma updateHistory_NoDup (c : jsstring) (prev : list jsstring) :
  NoDup prev -> NoDup (updateHistory c prev).
Proof.
  intros H. rewrite updateHistory_cons. constructor.
  - intros Hin. apply In_firstn, In_others in Hin. tauto.
  - apply NoDup_firstn. unfold others. now apply NoDup_filter.
Qed.

Lemma updateHistory_length (c : jsstring) (prev : list jsstring) :
  List.length (updateHistory c prev) <= 10.
Proof. unfold updateHistory. apply firstn_le_length. Qed.

(** In a list without repetition, leaving one member out makes it one shorter. *)
Lemma others_length (c : jsstring) (prev : list jsstring) :
  NoDup prev -> In c prev -> S (List.length (others c prev)) = List.length prev.
Proof.
  induction prev as [|a l IH]; intros Hnd Hin; [contradiction|].
  inversion_clear Hnd as [|? ? Ha Hl]. unfold others in *. simpl.
  destruct (eqb a c) eqn:E; simpl.
  - apply eqb_eq in E. subst a. f_equal.
    fold (others c l). now rewrite others_absent.
  - f_equal. apply IH; [assumption|].
    destruct Hin as [->|Hin]; [|assumption].
    rewrite eqb_refl in E. discriminate.
Qed.

End HistoryFacts.

Import HistoryFacts.

(** The code that is run comes first in the new history and nowhere else;
    the entries behind it are entries of the old history, and the history
    holds ten entries at most. *)
Theorem history_front (currentCode : jsstring) (prev : list jsstring) :
  exists rest,
    updateHistory currentCode prev = currentCode :: rest
    /\ ~ In currentCode rest
    /\ incl rest prev
    /\ List.length rest <= 9.
Proof.
  exists (firstn 9 (others currentCode prev)). split; [reflexivity|]. split; [|split].
  - intros H. apply In_firstn, In_others in H. tauto.
  - intros x H. apply In_firstn, In_others in H. tauto.
  - apply firstn_le_length.
Qed.

(** Running the same code twice in a row leaves the history as the first
    run made it. *)
Theorem history_idempotent (currentCode : jsstring) (prev : list jsstring) :
  updateHistory currentCode (updateHistory currentCode prev)
  = updateHistory currentCode prev.
Proof.
  rewrite (updateHistory_cons currentCode prev).
  rewrite updateHistory_cons. f_equal.
  unfold others at 1. cbn [filter]. rewrite eqb_refl. cbn [negb].
  fold (others currentCode (firstn 9 (others currentCode prev))).
  rewrite others_absent.
  - rewrite firstn_firstn. reflexivity.
  - intros H. apply In_firstn, In_others in H. tauto.
Qed.

(** A code that is not in the history is put in front of it, and only the
    entries from the tenth on are dropped. *)
Theorem history_new_code (currentCode : jsstring) (prev : list jsstring) :
  ~ In currentCode prev ->
  updateHistory currentCode prev = currentCode :: firstn 9 prev.
Proof.
  intros H. rewrite updateHistory_cons. now rewrite others_absent.
Qed.

Lemma history_new_code_witness :
  ~ In (lit "c") [lit "a"; lit "b"]
  /\ updateHistory (lit "c") [lit "a"; lit "b"] = [lit "c"; lit "a"; lit "b"].
Proof.
  assert (H : ~ In (lit "c") [lit "a"; lit "b"]).
  { intros [H|[H|[]]]; discriminate H. }
  split; [exact H|]. exact (history_new_code _ _ H).
Defined.

(** Running again a code of a history that has no repetition and at most
    ten entries moves it to the front: the new history is that code
    followed by the other entries in their order; it has the length and
    the entries of the old one. *)
Theorem history_rerun (currentCode : jsstring) (prev : list jsstring) :
  NoDup prev ->
  List.length prev <= 10 ->
  In currentCode prev ->
  updateHistory currentCode prev
  = currentCode :: filter (fun item => negb (eqb item currentCode)) prev
  /\ List.length (updateHistory currentCode prev) = List.length prev
  /\ incl prev (updateHistory currentCode prev)
  /\ incl (updateHistory currentCode prev) prev.
Proof.
  intros Hnd Hlen Hin.
  pose proof (others_length _ _ Hnd Hin) as Ho.
  rewrite updateHistory_cons, firstn_all2 by lia.
  split; [reflexivity|].
  split; [simpl; exact Ho|]. split.
  - intros x Hx. destruct (list_eq_dec N.eq_dec x currentCode) as [->|Hne].
    + now left.
    + right. apply In_others. tauto.
  - intros x [<-|Hx]; [assumption|]. apply In_others in Hx. tauto.
Qed.

Lemma history_rerun_witness :
  NoDup [lit "a"; lit "b"; lit "c"]
  /\ updateHistory (lit "b") [lit "a"; lit "b"; lit "c"] = [lit "b"; lit "a"; lit "c"].
Proof.
  assert (Hnd : NoDup [lit "a"; lit "b"; lit "c"]).
  { repeat constructor; simpl; intros H; repeat destruct H as [H|H];
      discriminate || assumption. }
  split; [exact Hnd|].
  refine (proj1 (history_rerun (lit "b") [lit "a"; lit "b"; lit "c"] Hnd _ _)).
  - simpl. lia.
  - right. left. reflexivity.
Defined.

(** Starting from the empty history, after any series of runs the history
    has no repetition and at most ten entries, each of them a code that was
    run, and the code run last comes first. *)
Theorem history_after_runs (runs : list jsstring) :
  NoDup (historyAfter runs [])
  /\ List.length (historyAfter runs []) <= 10
  /\ incl (historyAfter runs []) runs
  /\ hd_error (historyAfter runs []) = hd_error (rev runs).
Proof.
  unfold historyAfter.
  assert (G : forall rs h,
             NoDup h -> List.length h <= 10 ->
             let h' := fold_left (fun history code => updateHistory code history) rs h in
             NoDup h' /\ List.length h' <= 10 /\ incl h' (rs ++ h)
             /\ hd_error h' = hd_error (rev rs ++ h)).
  { induction rs as [|c rs IH]; intros h Hnd Hlen.
    - simpl. repeat split; try assumption. apply incl_refl.
    - cbn [fold_left].
      destruct (IH (updateHistory c h) (updateHistory_NoDup c _ Hnd)
                  (updateHistory_length c h)) as (A & B & C & D).
      cbv zeta. repeat split; try assumption.
      + intros x Hx. apply C in Hx. apply in_app_or in Hx as [Hx|Hx].
        * right. apply in_or_app. now left.
        * rewrite updateHistory_cons in Hx. destruct Hx as [<-|Hx]; [now left|].
          right. apply in_or_app. right. apply In_firstn, In_others in Hx. tauto.
      + rewrite D. simpl rev. rewrite <- app_assoc.
        destruct (rev rs); reflexivity. }
  destruct (G runs [] (NoDup_nil _) (Nat.le_0_l _)) as (A & B & C & D).
  rewrite app_nil_r in C, D. auto.
Qed.

(** ** The theme of the editor *)

(** The theme handed to the editor is never "auto"; when the stored
    setting is an identifier of [EDITOR_THEMES], it is one of the four other
    identifiers of the table, and "auto" follows the theme of the page:
    dark gives "vs-dark", everything else "vs-light". *)
Theorem editor_theme_resolved (editorTheme : jsstring) (theme : option jsstring) :
  getActualEditorTheme editorTheme theme <> lit "auto"
  /\ (In editorTheme (map fst EDITOR_THEMES) ->
      In (getActualEditorTheme editorTheme theme)
        [lit "vs-dark"; lit "vs-light"; lit "hc-black"; lit "hc-light"])
  /\ getActualEditorTheme (lit "auto") (Some (lit "dark")) = lit "vs-dark"
  /\ (theme <> Some (lit "dark") ->
      getActualEditorTheme (lit "auto") theme = lit "vs-light").
Proof.
  unfold getActualEditorTheme. repeat split.
  - destruct (eqb editorTheme (lit "auto")) eqn:E.
    + destruct (match theme with Some t => eqb t (lit "dark") | None => false end);
        discriminate.
    + intros ->. discriminate E.
  - intros H. destruct (eqb editorTheme (lit "auto")) eqn:E.
    + destruct (match theme with Some t => eqb t (lit "dark") | None => false end);
        simpl; auto.
    + simpl in H. destruct H as [H|[H|[H|[H|[H|[]]]]]]; subst editorTheme;
        simpl; auto. discriminate E.
  - intros H. cbn [eqb lit]. change (eqb (lit "auto") (lit "auto")) with true. cbv iota.
    destruct theme as [t|]; [|reflexivity].
    destruct (eqb t (lit "dark")) eqn:E; [|reflexivity].
    apply eqb_eq in E. subst t. contradiction.
Qed.

(** ** The growth curve and its drawing *)

Module GraphFacts.

Import Growth GrowthFacts Graph.

Lemma factorialFuel_fact (k fuel : nat) :
  k <= fuel -> factorialFuel fuel (Z.of_nat k) = Z.of_nat (fact k).
Proof.
  revert fuel. induction k as [|k IH]; intros fuel Hk.
  - destruct fuel; reflexivity.
  - destruct fuel as [|f]; [lia|]. cbn [factorialFuel].
    destruct (Z.leb_spec (Z.of_nat (S k)) 1) as [H1|H1].
    + assert (k = 0) by lia. subst k. reflexivity.
    + replace (Z.of_nat (S k) - 1)%Z with (Z.of_nat k) by lia.
      rewrite IH by lia. cbn [fact]. lia.
Qed.

Lemma factorial_fact (k : nat) : factorial (Z.of_nat k) = Z.of_nat (fact k).
Proof. unfold factorial. rewrite Nat2Z.id. now apply factorialFuel_fact. Qed.

Lemma factorial_small (n : Z) : (n <= 1)%Z -> factorial n = 1%Z.
Proof.
  intros H. unfold factorial. destruct (Z.to_nat n); [reflexivity|].
  cbn [factorialFuel]. destruct (Z.leb_spec n 1); [reflexivity | lia].
Qed.

Lemma factorial_mono (n m : Z) : (n <= m)%Z -> (factorial n <= factorial m)%Z.
Proof.
  intros H. destruct (Z.le_gt_cases n 1) as [Hn|Hn].
  - rewrite (factorial_small n Hn). apply factorialFuel_pos.
  - rewrite <- (Z2Nat.id n), <- (Z2Nat.id m) by lia.
    rewrite !factorial_fact. apply Nat2Z.inj_le, fact_le. lia.
Qed.

Lemma log2_mono (a b : R) : (1 <= a <= b)%R -> (log2 a <= log2 b)%R.
Proof.
  intros [Ha Hab]. unfold log2.
  assert (H2 : (0 < / ln 2)%R).
  { apply Rinv_0_lt_compat. rewrite <- ln_1. apply ln_increasing; lra. }
  apply Rmult_le_compat_r; [lra|].
  destruct Hab as [Hab | ->]; [|lra].
  left. apply ln_increasing; lra.
Qed.

(** Before the cap, the value of a class does not go down when the size
    goes up. *)
Lemma ordinate_mono (complexity : jsstring) (n m : Z) :
  (1 <= n <= m)%Z -> (ordinate complexity n <= ordinate complexity m)%R.
Proof.
  intros [Hn Hnm].
  assert (Hr : (1 <= IZR n <= IZR m)%R) by (split; now apply IZR_le).
  unfold ordinate.
  repeat match goal with |- context [if ?b then _ else _] => destruct b end.
  - lra.
  - now apply log2_mono.
  - lra.
  - pose proof (log2_nonneg (proj1 Hr)). pose proof (log2_mono _ _ Hr).
    apply Rmult_le_compat; lra.
  - apply IZR_le. nia.
  - apply IZR_le. assert (n * n <= m * m)%Z by nia. nia.
  - apply IZR_le. apply Z.pow_le_mono_r; lia.
  - apply IZR_le. apply factorial_mono. lia.
  - lra.
Qed.

Lemma point_mono (complexity : jsstring) (n m : Z) :
  (1 <= n <= m)%Z ->
  (y (pointAt complexity n) <= y (pointAt complexity m))%R.
Proof.
  intros H. cbn [y pointAt]. apply Rle_min_compat_r. now apply ordinate_mono.
Qed.

(** At size 10 every class is worth at least 1. *)
Lemma point_10 (complexity : jsstring) : (1 <= y (pointAt complexity 10))%R.
Proof.
  cbn [y pointAt]. apply Rmin_glb; [|lra].
  assert (L : (1 <= log2 10)%R).
  { replace 1%R with (log2 2).
    - apply log2_mono. lra.
    - unfold log2. field. apply Rgt_not_eq. rewrite <- ln_1.
      apply ln_increasing; lra. }
  unfold ordinate.
  repeat match goal with |- context [if ?b then _ else _] => destruct b end;
    try lra; try (apply IZR_le; vm_compute; discriminate).
Qed.

Lemma fold_max_snoc (l : list R) (a top : R) :
  Forall (fun v => (v <= top)%R) (a :: l) -> fold_left Rmax (l ++ [top]) a = top.
Proof.
  revert a. induction l as [|b l IH]; intros a H.
  - inversion_clear H. simpl. now apply Rmax_right.
  - inversion_clear H as [|? ? Ha Hl]. inversion_clear Hl as [|? ? Hb Hl'].
    simpl. apply IH. constructor; [|assumption]. now apply Rmax_lub.
Qed.

Lemma maxY_last (complexity : jsstring) :
  maxY (generateComplexityData complexity) = Some (y (pointAt complexity 10)).
Proof.
  rewrite generateComplexityData_map. unfold maxY, mathMax, sizes. cbn [map].
  f_equal.
  apply (fold_max_snoc
           [y (pointAt complexity 2); y (pointAt complexity 3);
            y (pointAt complexity 4); y (pointAt complexity 5);
            y (pointAt complexity 6); y (pointAt complexity 7);
            y (pointAt complexity 8); y (pointAt complexity 9)]).
  repeat (constructor; [apply point_mono; lia|]). constructor.
Qed.

End GraphFacts.

Import GraphFacts Graph.

(** [factorial] as the source computes it, on doubles and with a bounded
    call stack.  For a natural number up to 22 and a stack that allows
    more nested calls than the number, it returns the factorial exactly,
    which is also the value of the integer model [Growth.factorial]; for
    every double that is at most 1 it returns 1; on NaN it exhausts every
    stack; at 23 the result is no longer the factorial, and at 171 it is
    infinite. *)
Theorem factorial_in_doubles :
  (forall stack k, k <= 22 -> k < stack ->
     option_map Double.integerOf (Double.factorial stack (Double.ofNat k))
     = Some (Some (factorial (Z.of_nat k)))
     /\ factorial (Z.of_nat k) = Z.of_nat (fact k))
  /\ (forall stack n, PrimFloat.leb n PrimFloat.one = true ->
        Double.factorial (S stack) n = Some PrimFloat.one)
  /\ (forall stack, Double.factorial stack PrimFloat.nan = None)
  /\ option_map Double.integerOf (Double.factorial 24 (Double.ofNat 23))
     = Some (Some 25852016738884978212864%Z)
  /\ factorial 23 = 25852016738884976640000%Z
  /\ Double.factorial 172 (Double.ofNat 171) = Some PrimFloat.infinity.
Proof.
  split; [|split; [|split; [|split; [|split]]]].
  - intros stack k Hk Hs. split; [|apply factorial_fact].
    assert (M : forall f f' n r, f <= f' -> Double.factorial f n = Some r ->
                                 Double.factorial f' n = Some r).
    { induction f as [|f IH]; intros f' n r Hf H; [discriminate H|].
      destruct f' as [|f']; [lia|]. cbn [Double.factorial] in *.
      destruct (PrimFloat.leb n PrimFloat.one); [exact H|].
      destruct (Double.factorial f (PrimFloat.sub n PrimFloat.one)) as [r'|] eqn:E;
        [|discriminate H].
      rewrite (IH f' _ r' ltac:(lia) E). exact H. }
    assert (B : exists r, Double.factorial (S k) (Double.ofNat k) = Some r
                          /\ Double.integerOf r = Some (factorial (Z.of_nat k))).
    { do 23 (destruct k as [|k];
             [eexists; split; [vm_compute; reflexivity | vm_compute; reflexivity]|]).
      lia. }
    destruct B as (r & Hr & Hi).
    rewrite (M (S k) stack _ r ltac:(lia) Hr). cbn [option_map]. now rewrite Hi.
  - intros stack n H. cbn [Double.factorial]. now rewrite H.
  - induction stack as [|stack IH]; [reflexivity|].
    cbn [Double.factorial].
    change (PrimFloat.leb PrimFloat.nan PrimFloat.one) with false.
    change (PrimFloat.sub PrimFloat.nan PrimFloat.one) with PrimFloat.nan.
    now rewrite IH.
  - vm_compute. reflexivity.
  - vm_compute. reflexivity.
  - vm_compute. reflexivity.
Qed.

Lemma factorial_in_doubles_witness :
  option_map Double.integerOf (Double.factorial 30 (Double.ofNat 22))
  = Some (Some 1124000727777607680000%Z).
Proof.
  destruct factorial_in_doubles as [H _].
  destruct (H 30 22 (le_n 22) ltac:(lia)) as [E _].
  exact E.
Defined.

(** For every class the values of the curve never go down from one size
    to the next. *)
Theorem growth_monotone (complexity : jsstring) :
  StronglySorted Rle (map y (generateComplexityData complexity)).
Proof.
  rewrite generateComplexityData_map. unfold sizes. cbn [map].
  repeat (constructor; [|repeat (constructor; [apply point_mono; lia|]); constructor]).
  constructor.
Qed.

(** The scale of the graph: for every class [maxY] is the value at size 10
    and is at least 1, so [getY] never divides by zero. *)
Theorem graph_scale (complexity : jsstring) :
  exists top,
    maxY (generateComplexityData complexity) = Some top
    /\ nth_error (map y (generateComplexityData complexity)) 9 = Some top
    /\ (1 <= top)%R.
Proof.
  exists (y (pointAt complexity 10)). split; [apply maxY_last|].
  split; [reflexivity | apply point_10].
Qed.

(** Every point of every curve is drawn inside the frame of the graph:
    between the left and the right padding, and between the top and the
    bottom padding; the first point is on the left edge and the last point
    in the top right corner. *)
Theorem graph_inside_frame (complexity : jsstring) :
  exists top,
    maxY (generateComplexityData complexity) = Some top
    /\ Forall (fun p => (40 <= getX (IZR (x p)) <= 260)%R
                        /\ (40 <= getY top (y p) <= 160)%R)
         (generateComplexityData complexity)
    /\ getX 1 = 40%R
    /\ getX 10 = 260%R
    /\ getY top top = 40%R.
Proof.
  exists (y (pointAt complexity 10)). split; [apply maxY_last|].
  pose proof (point_10 complexity) as Htop.
  set (top := y (pointAt complexity 10)) in *.
  assert (Hy : forall n, (1 <= n <= 10)%Z ->
                         (40 <= getY top (y (pointAt complexity n)) <= 160)%R).
  { intros n Hn.
    assert (H0 : (0 <= y (pointAt complexity n))%R) by (apply capped; lia).
    assert (H1 : (y (pointAt complexity n) <= top)%R) by (apply point_mono; lia).
    assert (Hr : (0 <= y (pointAt complexity n) / top <= 1)%R).
    { unfold Rdiv. split.
      - apply Rmult_le_pos; [assumption|]. left. apply Rinv_0_lt_compat. lra.
      - replace 1%R with (top * / top)%R by (field; lra).
        apply Rmult_le_compat_r; [|assumption].
        left. apply Rinv_0_lt_compat. lra. }
    unfold getY, height, padding. lra. }
  assert (Hx : forall n, (1 <= n <= 10)%Z -> (40 <= getX (IZR n) <= 260)%R).
  { intros n [Ha Hb]. apply IZR_le in Ha, Hb.
    unfold getX, width, padding. lra. }
  split.
  { rewrite generateComplexityData_map. apply Forall_map. unfold sizes.
    repeat match goal with
           | |- Forall _ (?n :: _) =>
               constructor;
               [split; [exact (Hx n ltac:(lia)) | exact (Hy n ltac:(lia))]|]
           end.
    constructor. }
  split; [unfold getX, width, padding; lra|].
  split; [unfold getX, width, padding; lra|].
  unfold getY, height, padding. field. lra.
Qed.

(** ** The recursion analyzer *)

Module RecursionFacts.

Import ScannerFacts.

Lemma startsWith_app_l (a r p : jsstring) :
  startsWith a p = true -> startsWith (a ++ r) p = true.
Proof.
  unfold startsWith. destruct (stripPrefix p a) as [t|] eqn:E; [|discriminate].
  intros _. apply stripPrefix_Some in E. subst a.
  now rewrite <- app_assoc, stripPrefix_app.
Qed.

(** Whoever includes a text includes each suffix of it. *)
Lemma includes_suffix (s p q : jsstring) :
  includes s (p ++ q) = true -> includes s q = true.
Proof.
  induction s as [|c s IH]; cbn [includes]; intros H.
  - rewrite orb_false_r in H. unfold startsWith in H.
    destruct (stripPrefix (p ++ q) []) as [t|] eqn:E; [|discriminate].
    apply stripPrefix_Some in E. symmetry in E.
    apply app_eq_nil in E as [E _]. apply app_eq_nil in E as [_ ->].
    reflexivity.
  - apply orb_true_iff in H as [H|H].
    + unfold startsWith in H.
      destruct (stripPrefix (p ++ q) (c :: s)) as [t|] eqn:E; [|discriminate].
      apply stripPrefix_Some in E. rewrite <- app_assoc in E.
      change (startsWith (c :: s) q || includes s q = true).
      change (includes (c :: s) q = true). rewrite E. apply includes_infix.
    + rewrite (IH H). apply orb_true_r.
Qed.

(** The lazy tail is a prefix of the text it is taken from. *)
Lemma lazyBody_prefix (s : jsstring) : exists r, s = lazyBody s ++ r.
Proof. destruct (lazyBody_shortest s) as (r & H & _). now exists r. Qed.

(** The lazy tail holds no line feed followed by "def" or by "class". *)
Lemma lazyBody_excludes (s sub : jsstring) :
  sub = nl ++ lit "def" \/ sub = nl ++ lit "class" ->
  includes (lazyBody s) sub = false.
Proof.
  intros Hsub. induction s as [|c s IH]; [destruct Hsub; subst; reflexivity|].
  cbn [lazyBody].
  destruct (startsWith (c :: s) (nl ++ lit "def")
            || startsWith (c :: s) (nl ++ lit "class")) eqn:E.
  - destruct Hsub; subst; reflexivity.
  - cbn [includes]. rewrite IH, orb_false_r.
    apply orb_false_iff in E as [E1 E2].
    destruct (lazyBody_prefix s) as [r Hr].
    destruct (startsWith (c :: lazyBody s) sub) eqn:F; [|reflexivity].
    apply (startsWith_app_l _ r) in F. cbn [app] in F. rewrite <- Hr in F.
    destruct Hsub; subst sub; congruence.
Qed.

(** A match of the function expression sits in the code, at the place of
    a match of its own. *)
Lemma matchFunc_at (name code m : jsstring) :
  matchFunc name code = Some m ->
  exists pre s, code = pre ++ s /\ matchFuncAt name s = Some m.
Proof.
  induction code as [|c code IH]; cbn [matchFunc]; intros H.
  - destruct (matchFuncAt name []) eqn:E; [|discriminate].
    exists [], []. now rewrite E.
  - destruct (matchFuncAt name (c :: code)) eqn:E.
    + exists [], (c :: code). now rewrite E.
    + destruct (IH H) as (pre & s & -> & Hs). now exists (c :: pre), s.
Qed.

(** Each match of the scan is a match of the definition expression. *)
Lemma matchAllDefFrom_In (s : jsstring) (k : nat) (m : jsstring) :
  In m (matchAllDefFrom k s) ->
  exists s' name rest, matchDefAt s' = Some (name, m, rest).
Proof.
  revert k. induction s as [|c s IH]; intros k H; [contradiction|].
  cbn [matchAllDefFrom] in H. destruct k as [|k]; [|eauto].
  destruct (matchDefAt (c :: s)) as [[[name m'] rest]|] eqn:E; [|eauto].
  destruct H as [<-|H]; eauto.
Qed.

(** Replacing a match by its capture leaves the captured name. *)
Lemma replaceDef_match (s name m rest : jsstring) :
  matchDefAt s = Some (name, m, rest) -> replaceDef m = name.
Proof.
  intros H. apply matchDefAt_sound in H as (ws & ws' & -> & _ & Hws & Hname & Hws').
  change (lit "def" ++ ws ++ name ++ ws' ++ [ch "("])
    with (ch "d" :: ch "e" :: ch "f" :: ws ++ name ++ ws' ++ [ch "("]).
  cbn [replaceDef].
  change (ch "d" :: ch "e" :: ch "f" :: ws ++ name ++ ws' ++ [ch "("])
    with (lit "def" ++ ws ++ name ++ ws' ++ ch "(" :: []).
  rewrite (matchDefAt_complete ws name ws' [] Hws Hname Hws'). apply app_nil_r.
Qed.

Lemma matchDefAt_def (s : jsstring) :
  matchDefAt s <> None -> startsWith s (lit "def") = true.
Proof.
  unfold matchDefAt, startsWith.
  destruct (stripPrefix (lit "def") s); [reflexivity | congruence].
Qed.

Lemma matchAllDefFrom_no_def (s : jsstring) (k : nat) :
  includes s (lit "def") = false -> matchAllDefFrom k s = [].
Proof.
  revert k. induction s as [|c s IH]; intros k H; [reflexivity|].
  cbn [includes] in H. apply orb_false_iff in H as [H1 H2].
  cbn [matchAllDefFrom]. destruct k; [|now apply IH].
  destruct (matchDefAt (c :: s)) eqn:E; [|now apply IH].
  assert (F : startsWith (c :: s) (lit "def") = true)
    by (apply matchDefAt_def; congruence).
  congruence.
Qed.

(** The loop returns one of four results. *)
Lemma recursionLoop_kinds (code : jsstring) (names : list jsstring) :
  In (recursionLoop code names)
    [noRecursion; recursionOf (lit "fibonacci"); recursionOf (lit "factorial");
     recursionOf (lit "linear")].
Proof.
  induction names as [|name names IH]; [now left|].
  cbn [recursionLoop].
  destruct (matchFunc name code); [|exact IH].
  destruct (includes _ (name ++ lit "(")); [|exact IH].
  destruct (_ || _); [right; now left|].
  destruct (_ || _); [right; right; now left|].
  right; right; right; now left.
Qed.

Lemma analyzeRecursion_kinds (code : jsstring) :
  In (analyzeRecursion code)
    [noRecursion; recursionOf (lit "fibonacci"); recursionOf (lit "factorial");
     recursionOf (lit "linear")].
Proof.
  unfold analyzeRecursion. destruct (matchAllDef code); [|now left].
  apply recursionLoop_kinds.
Qed.

End RecursionFacts.

Import RecursionFacts.

(** The recursion analyzer answers in one of four ways: no recursion with
    the type "none", or recursion with the type "fibonacci", "factorial"
    or "linear".  It never gives the type "exponential", for which the
    classifier also tests, and it reports recursion exactly when the type is
    not "none". *)
Theorem recursion_result_kinds (code : jsstring) :
  In (analyzeRecursion code)
    [noRecursion; recursionOf (lit "fibonacci"); recursionOf (lit "factorial");
     recursionOf (lit "linear")]
  /\ type (analyzeRecursion code) <> lit "exponential"
  /\ (hasRecursion (analyzeRecursion code) = true
      <-> type (analyzeRecursion code) <> lit "none").
Proof.
  pose proof (analyzeRecursion_kinds code) as H.
  split; [exact H|].
  destruct H as [<-|[<-|[<-|[<-|[]]]]]; cbn [type hasRecursion noRecursion recursionOf];
    (split; [discriminate|]); split; intros H; try reflexivity;
    try discriminate; try (exfalso; apply H; reflexivity).
Qed.

(** Every name taken from the matches of the definition expression is a
    non-empty run of letters, digits and underscores: the function
    expression built from it holds no character with a meaning of its own
    in a regular expression. *)
Theorem function_names_are_words (code : jsstring) :
  Forall (fun name => nonEmpty name && forallb isWord name = true)
    (functionNames (matchAllDefFrom 0 code)).
Proof.
  unfold functionNames. apply Forall_map, Forall_forall. intros m Hm.
  apply matchAllDefFrom_In in Hm as (s & name & rest & Hs).
  rewrite (replaceDef_match _ _ _ _ Hs).
  apply matchDefAt_sound in Hs as (ws & ws' & _ & _ & _ & Hname & _).
  exact Hname.
Qed.

(** A code in which "def" does not occur is never reported as recursive. *)
Theorem no_def_no_recursion (code : jsstring) :
  includes code (lit "def") = false ->
  analyzeRecursion code = noRecursion.
Proof.
  intros H. unfold analyzeRecursion, matchAllDef.
  now rewrite (matchAllDefFrom_no_def code 0 H).
Qed.

Lemma no_def_no_recursion_witness :
  includes Inputs.nested (lit "def") = false
  /\ analyzeRecursion Inputs.nested = noRecursion.
Proof.
  split; [reflexivity|]. apply (no_def_no_recursion Inputs.nested). reflexivity.
Defined.

(** The text that is searched for a function is a part of the code: a
    header, from "def" to the first "):", followed by a body that holds no
    line feed followed by "def" or by "class". *)
Theorem function_text_shape (name code m : jsstring) :
  matchFunc name code = Some m ->
  includes code m = true
  /\ exists ws ws' params body,
       m = lit "def" ++ ws ++ name ++ ws' ++ [ch "("] ++ params ++ lit "):" ++ body
       /\ nonEmpty ws && forallb isSpace ws = true
       /\ forallb isSpace ws' = true
       /\ forallb (fun c => negb (c =? ch ")")%N) params = true
       /\ includes body (nl ++ lit "def") = false
       /\ includes body (nl ++ lit "class") = false.
Proof.
  intros H. apply matchFunc_at in H as (pre & s & -> & H).
  apply matchFuncAt_sound in H as (ws & ws' & params & rest & -> & -> & Hws & Hws' & Hp).
  split.
  - destruct (lazyBody_prefix rest) as [r Hr]. rewrite Hr at 1.
    replace (lit "def" ++ ws ++ name ++ ws' ++ ch "(" :: params ++ lit "):"
               ++ lazyBody rest ++ r)
      with ((lit "def" ++ ws ++ name ++ ws' ++ [ch "("] ++ params ++ lit "):"
               ++ lazyBody rest) ++ r)
      by (repeat (rewrite <- app_assoc || rewrite <- app_comm_cons); reflexivity).
    apply includes_app_l, includes_startsWith, startsWith_app.
  - exists ws, ws', params, (lazyBody rest). repeat split; try assumption.
    + apply lazyBody_excludes. now left.
    + apply lazyBody_excludes. now right.
Qed.

Lemma function_text_shape_witness :
  matchFunc (lit "g") Inputs.fibSecond
  = Some (lit "def g(n):" ++ nl ++ lit "    return g(n)")
  /\ includes Inputs.fibSecond (lit "def g(n):" ++ nl ++ lit "    return g(n)") = true.
Proof.
  assert (H : matchFunc (lit "g") Inputs.fibSecond
              = Some (lit "def g(n):" ++ nl ++ lit "    return g(n)")) by reflexivity.
  split; [exact H|]. exact (proj1 (function_text_shape _ _ _ H)).
Defined.



(** ** The classifier *)

Module ReportFacts.

Import ClassifierFacts.

Lemma details_classify (code : jsstring) (nl : NestedLoops) (rc : Recursion)
    (ds : list jsstring) :
  details (classify code nl rc ds)
  = v_details (byDataStructures ds
                 (bySearch code (bySort code (byRecursionOrLoops nl rc start)))).
Proof. reflexivity. Qed.

(** The class of a report of the [try] block. *)
Lemma classify_class (code : jsstring) (nl : NestedLoops) (rc : Recursion)
    (ds : list jsstring) :
  In (complexity (classify code nl rc ds))
    [Class.O_1; Class.O_n; Class.O_n2; Class.O_n3; Class.O_2n; Class.O_fact;
     Class.O_n_log_n].
Proof.
  rewrite complexity_classify.
  unfold bySearch, bySort, byRecursionOrLoops.
  destruct (usesSort code), (usesListSearch code), (hasRecursion rc);
    repeat match goal with
           | |- context [if ?b then _ else _] => destruct b
           end;
    cbn; auto 10.
Qed.

End ReportFacts.

Import ReportFacts.

(** On every input the class of the report is one of O(1), O(n), O(n²),
    O(n³), O(2^n), O(n!) and O(n log n): never O(log n), and never the class
    "O(?)" of the [catch] block; the best case is always O(1). *)
Theorem report_class_range (code : jsstring) :
  In (complexity (analyzeComplexity code))
    [Class.O_1; Class.O_n; Class.O_n2; Class.O_n3; Class.O_2n; Class.O_fact;
     Class.O_n_log_n]
  /\ complexity (analyzeComplexity code) <> Class.O_log_n
  /\ complexity (analyzeComplexity code) <> Class.Unknown
  /\ bestCase (analyzeComplexity code) = Class.O_1.
Proof.
  rewrite ClassifierFacts.analyzeComplexity_classify.
  pose proof (classify_class code (analyzeNestedLoops code) (analyzeRecursion code)
                (analyzeDataStructures code)) as H.
  split; [exact H|].
  split; [|split].
  - intros E. rewrite E in H. cbn in H.
    repeat destruct H as [H|H]; try discriminate H. exact H.
  - intros E. rewrite E in H. cbn in H.
    repeat destruct H as [H|H]; try discriminate H. exact H.
  - unfold classify. cbn [bestCase]. now destruct (_ >? _)%Z.
Qed.

(** The report holds at most four lines of detail, and it holds none
    exactly when nothing was detected: no recursion, no loop, no sort call,
    no list search and no data structure. *)
Theorem report_details (code : jsstring) :
  List.length (details (analyzeComplexity code)) <= 4
  /\ (details (analyzeComplexity code) = []
      <-> hasRecursion (analyzeRecursion code) = false
          /\ count (analyzeNestedLoops code) = 0%Z
          /\ usesSort code = false
          /\ usesListSearch code = false
          /\ analyzeDataStructures code = []).
Proof.
  rewrite ClassifierFacts.analyzeComplexity_classify, details_classify.
  pose proof (NestingFacts.count_nonneg code) as Hc.
  pose proof (analyzeRecursion_kinds code) as Hk.
  unfold byDataStructures, bySearch, bySort, byRecursionOrLoops.
  destruct (analyzeDataStructures code) as [|d ds];
    destruct (usesSort code), (usesListSearch code);
    destruct Hk as [<-|[<-|[<-|[<-|[]]]]];
    cbn [hasRecursion type noRecursion recursionOf];
    try (destruct (Z.geb_spec (count (analyzeNestedLoops code)) 3);
         [|destruct (Z.eqb_spec (count (analyzeNestedLoops code)) 2);
           [|destruct (Z.eqb_spec (count (analyzeNestedLoops code)) 1)]]);
    (split; [cbn; lia|]);
    (split;
     [ first [ cbn; discriminate | intros _; repeat split; lia ]
     | intros (H1 & H2 & H3 & H4 & H5);
       first [ discriminate | lia | reflexivity ] ]).
Qed.

(** ** The data-structure detector *)

(** The detector names each structure at most once, in the order List,
    Dictionary, Set, Tuple of its tests.  Tuple is named exactly when the
    code holds an opening parenthesis, so Set is never named without Tuple,
    and nothing is named exactly when the code holds no "(", no "[]" and no
    "{}". *)
Theorem data_structures_reported (code : jsstring) :
  analyzeDataStructures code
  = filter (fun kind => existsb (eqb kind) (analyzeDataStructures code))
      [lit "List"; lit "Dictionary"; lit "Set"; lit "Tuple"]
  /\ (In (lit "Tuple") (analyzeDataStructures code)
      <-> includes code (lit "(") = true)
  /\ (In (lit "Set") (analyzeDataStructures code)
      -> In (lit "Tuple") (analyzeDataStructures code))
  /\ (analyzeDataStructures code = []
      <-> includes code (lit "(") = false
          /\ includes code (lit "[]") = false
          /\ includes code (lit "{}") = false).
Proof.
  assert (S : forall p, includes code (p ++ lit "(") = true
                        -> includes code (lit "(") = true)
    by (intros p; apply includes_suffix).
  pose proof (S (lit "list")) as S1. pose proof (S (lit "dict")) as S2.
  pose proof (S (lit "set")) as S3. pose proof (S (lit "tuple")) as S4.
  change (lit "list" ++ lit "(") with (lit "list(") in S1.
  change (lit "dict" ++ lit "(") with (lit "dict(") in S2.
  change (lit "set" ++ lit "(") with (lit "set(") in S3.
  change (lit "tuple" ++ lit "(") with (lit "tuple(") in S4.
  clear S.
  assert (T : includes code (lit "tuple(") || includes code (lit "(")
              = includes code (lit "(")).
  { destruct (includes code (lit "(")); [apply orb_true_r|].
    destruct (includes code (lit "tuple(")); [discriminate (S4 eq_refl) | reflexivity]. }
  assert (L : includes code (lit "list(") || includes code (lit "[]") = false
              <-> (includes code (lit "(") = false -> includes code (lit "[]") = false)
                  /\ (includes code (lit "(") = true
                      -> includes code (lit "list(") = false
                         /\ includes code (lit "[]") = false)).
  { destruct (includes code (lit "(")), (includes code (lit "list(")),
      (includes code (lit "[]")); cbn; intuition (discriminate || auto). }
  assert (D : includes code (lit "dict(") || includes code (lit "{}") = false
              <-> (includes code (lit "(") = false -> includes code (lit "{}") = false)
                  /\ (includes code (lit "(") = true
                      -> includes code (lit "dict(") = false
                         /\ includes code (lit "{}") = false)).
  { destruct (includes code (lit "(")), (includes code (lit "dict(")),
      (includes code (lit "{}")); cbn; intuition (discriminate || auto). }
  clear S1 S2 S4.
  unfold analyzeDataStructures, pushIf. rewrite T. clear T.
  destruct (includes code (lit "list(") || includes code (lit "[]")) eqn:B1;
    destruct (includes code (lit "dict(") || includes code (lit "{}")) eqn:B2;
    destruct (includes code (lit "(")) eqn:P;
    (destruct (includes code (lit "set(")) eqn:B3;
     [try discriminate (S3 eq_refl)|]);
    clear S3; cbn [app];
    (split; [reflexivity|]).
  all: split;
    [ split; intros H;
      [ first [ reflexivity
              | cbn in H; repeat (destruct H as [H|H]; [discriminate H|]);
                contradiction ]
      | first [ discriminate H | cbn; auto 6 ] ]
    | ].
  all: split;
    [ intros H;
      first [ solve [cbn; auto 6]
            | cbn in H; repeat (destruct H as [H|H]; [discriminate H|]);
              contradiction ]
    | ].
  all: split;
    [ intros H;
      first [ discriminate H
            | repeat split;
              [ exact (proj1 (proj1 L eq_refl) eq_refl)
              | exact (proj1 (proj1 D eq_refl) eq_refl) ] ]
    | intros (H1 & H2 & H3);
      first [ reflexivity
            | discriminate H1
            | assert (true = false)
                by (apply L; split; [intros _; exact H2 | intros K; discriminate K]);
              discriminate
            | assert (true = false)
                by (apply D; split; [intros _; exact H3 | intros K; discriminate K]);
              discriminate ] ].
Qed.

(** ** The loop-nesting analyzer *)

Module DepthFacts.

Import NestingFacts.

Lemma loopStarts_cons (line : jsstring) (lines : list jsstring) :
  loopStarts (line :: lines)
  = ((if isLoopStart (trim line) then 1 else 0) + loopStarts lines)%Z.
Proof.
  unfold loopStarts. cbn [filter].
  destruct (isLoopStart (trim line)); cbn [List.length]; lia.
Qed.

Lemma loopStarts_nonneg (lines : list jsstring) : (0 <= loopStarts lines)%Z.
Proof. unfold loopStarts. lia. Qed.

(** With [k] loop-start lines behind and the lines [lines] ahead, the
    counter and the maximum stay below the number of loop-start lines, and
    the maximum is positive as soon as there is one. *)
Lemma fold_bounds (lines : list jsstring) (m c k : Z) :
  (0 <= c <= m)%Z -> (m <= k)%Z -> (0 < k -> 1 <= m)%Z ->
  let st := fold_left nestingStep lines (m, c) in
  (0 <= snd st <= fst st)%Z
  /\ (fst st <= k + loopStarts lines)%Z
  /\ (0 < k + loopStarts lines -> 1 <= fst st)%Z
  /\ (m <= fst st)%Z.
Proof.
  revert m c k. induction lines as [|l ls IH]; intros m c k Hc Hm Hk.
  - cbn [fold_left fst snd]. unfold loopStarts. cbn. lia.
  - cbn [fold_left]. rewrite nestingStep_actual by lia.
    rewrite loopStarts_cons. pose proof (loopStarts_nonneg ls) as Hn.
    destruct (isLoopStart (trim l)).
    + specialize (IH (Z.max m (c + 1)) (c + 1)%Z (k + 1)%Z
                    ltac:(lia) ltac:(lia) ltac:(lia)).
      cbv zeta in *. destruct IH as (A & B & C & D). repeat split; lia.
    + specialize (IH m (Z.max 0 (c - 1)) k ltac:(lia) ltac:(lia) ltac:(lia)).
      cbv zeta in *. destruct IH as (A & B & C & D). repeat split; lia.
Qed.

(** A block of loop-start lines raises the counter by its length. *)
Lemma fold_block (block : list jsstring) (m c : Z) :
  Forall (fun line => isLoopStart (trim line) = true) block ->
  (0 <= c <= m)%Z ->
  fold_left nestingStep block (m, c)
  = (Z.max m (c + Z.of_nat (List.length block)),
     (c + Z.of_nat (List.length block))%Z).
Proof.
  intros H. revert m c. induction H as [|l ls Hl Hls IH]; intros m c Hc.
  - cbn [fold_left List.length]. f_equal; lia.
  - cbn [fold_left]. rewrite nestingStep_actual by lia. rewrite Hl.
    rewrite IH by lia. cbn [List.length]. f_equal; lia.
Qed.

End DepthFacts.

Import DepthFacts.

(** The depth lies between zero and the number of loop-start lines, and
    it is zero exactly when the code has no loop-start line. *)
Theorem nesting_depth_bounds (code : jsstring) :
  (0 <= count (analyzeNestedLoops code) <= loopStarts (splitLines code))%Z
  /\ (count (analyzeNestedLoops code) = 0%Z <-> loopStarts (splitLines code) = 0%Z).
Proof.
  unfold analyzeNestedLoops. cbn [count].
  pose proof (fold_bounds (splitLines code) 0 0 0
                ltac:(lia) ltac:(lia) ltac:(lia)) as (A & B & C & D).
  pose proof (loopStarts_nonneg (splitLines code)). lia.
Qed.

(** Loop headers on lines that follow one another directly are counted as
    nested: a block of k such lines anywhere in the code gives a depth of
    at least k. *)
Theorem consecutive_loop_headers (code : jsstring) (before block after : list jsstring) :
  splitLines code = before ++ block ++ after ->
  Forall (fun line => isLoopStart (trim line) = true) block ->
  (Z.of_nat (List.length block) <= count (analyzeNestedLoops code))%Z.
Proof.
  intros Hs Hb. unfold analyzeNestedLoops. cbn [count].
  rewrite Hs, !fold_left_app.
  pose proof (fold_bounds before 0 0 0 ltac:(lia) ltac:(lia) ltac:(lia))
    as (A & _ & _ & _).
  destruct (fold_left nestingStep before (0, 0)%Z) as [m c]. cbn [fst snd] in A.
  rewrite (fold_block block m c Hb A).
  pose proof (fold_bounds after (Z.max m (c + Z.of_nat (List.length block)))
                (c + Z.of_nat (List.length block))
                (Z.max m (c + Z.of_nat (List.length block)))
                ltac:(lia) ltac:(lia) ltac:(lia)) as (_ & _ & _ & D).
  lia.
Qed.

Lemma consecutive_loop_headers_witness :
  (2 <= count (analyzeNestedLoops Inputs.nested))%Z.
Proof.
  apply (consecutive_loop_headers Inputs.nested []
           [lit "for i in range(5):"; lit "    for j in range(5):"]
           [lit "        print(i*j)"]).
  - reflexivity.
  - repeat constructor.
Defined.

(** The lines of the analyzer: joined with line feeds they give the code
    back, there is always at least one, and none holds a line feed. *)
Theorem lines_round_trip (code : jsstring) :
  join nl (splitLines code) = code
  /\ splitLines code <> []
  /\ Forall (fun line => ~ In LF line) (splitLines code).
Proof.
  induction code as [|c code (IH1 & IH2 & IH3)].
  - cbn. repeat split; [discriminate | repeat constructor; auto].
  - cbn [splitLines]. destruct (N.eqb_spec c LF) as [->|Hc].
    + repeat split; [|discriminate | constructor; auto].
      cbn [join]. destruct (splitLines code); [contradiction|].
      cbn [app]. fold (join nl (j :: l)). now rewrite IH1.
    + destruct (splitLines code) as [|l ls]; [contradiction|].
      repeat split; [|discriminate|].
      * cbn [join] in *. destruct ls; cbn [app]; now rewrite IH1.
      * inversion_clear IH3 as [|? ? Hl Hls]. constructor; [|assumption].
        intros [H|H]; [congruence | contradiction].
Qed.

(** ** Precedence in the classifier *)

Module PrecedenceFacts.

Import ClassifierFacts.

(** The class by the type of the recursion. *)
Lemma byRecursion (nl : NestedLoops) (kind : jsstring) :
  In kind [lit "fibonacci"; lit "factorial"; lit "linear"] ->
  v_complexity (byRecursionOrLoops nl (recursionOf kind) start)
  = if eqb kind (lit "fibonacci") then Class.O_2n
    else if eqb kind (lit "linear") then Class.O_n
    else Class.O_fact.
Proof. intros [<-|[<-|[<-|[]]]]; reflexivity. Qed.

Lemma dropWhile_app_space (ws s : jsstring) :
  forallb isSpace ws = true -> dropWhile isSpace (ws ++ s) = dropWhile isSpace s.
Proof.
  induction ws as [|c ws IH]; [reflexivity|]. cbn [forallb app dropWhile].
  intros H. apply andb_true_iff in H as [Hc H]. rewrite Hc. now apply IH.
Qed.

Lemma trim_indent (ws s : jsstring) :
  forallb isSpace ws = true -> trim (ws ++ s) = trim s.
Proof. intros H. unfold trim. now rewrite dropWhile_app_space. Qed.

Lemma dropWhile_all (s : jsstring) :
  dropWhile isSpace s = [] <-> forallb isSpace s = true.
Proof.
  induction s as [|c s IH]; [split; reflexivity|]. cbn [dropWhile forallb].
  destruct (isSpace c); cbn [andb]; [exact IH|]. split; discriminate.
Qed.

End PrecedenceFacts.

Import PrecedenceFacts.

(** The class of the report by precedence: a sort call first, then the
    type of the recursion, then the depth of the loops, then the list
    search, and O(1) when nothing was detected. *)
Theorem class_by_precedence (code : jsstring) :
  complexity (analyzeComplexity code)
  = if usesSort code then Class.O_n_log_n
    else if hasRecursion (analyzeRecursion code) then
      if eqb (type (analyzeRecursion code)) (lit "fibonacci") then Class.O_2n
      else if eqb (type (analyzeRecursion code)) (lit "linear") then Class.O_n
      else Class.O_fact
    else if (3 <=? count (analyzeNestedLoops code))%Z then Class.O_n3
    else if (count (analyzeNestedLoops code) =? 2)%Z then Class.O_n2
    else if (count (analyzeNestedLoops code) =? 1)%Z then Class.O_n
    else if usesListSearch code then Class.O_n
    else Class.O_1.
Proof.
  rewrite ClassifierFacts.analyzeComplexity_classify, ClassifierFacts.complexity_classify.
  unfold bySort. destruct (usesSort code).
  { now apply ClassifierFacts.bySearch_keeps. }
  destruct (analyzeRecursion_kinds code) as [<-|H].
  - cbn [hasRecursion noRecursion].
    assert (E : v_complexity (byRecursionOrLoops (analyzeNestedLoops code)
                                noRecursion start)
                = loopClass (count (analyzeNestedLoops code)))
      by now apply ClassifierFacts.byLoops.
    unfold loopClass in E. rewrite Z.geb_leb in E.
    destruct (3 <=? count (analyzeNestedLoops code))%Z;
      [now apply ClassifierFacts.bySearch_keeps|].
    destruct (count (analyzeNestedLoops code) =? 2)%Z;
      [now apply ClassifierFacts.bySearch_keeps|].
    destruct (count (analyzeNestedLoops code) =? 1)%Z;
      [now apply ClassifierFacts.bySearch_keeps|].
    unfold bySearch. rewrite E. cbn [eqb Class.O_1 lit].
    change (eqb Class.O_1 Class.O_1) with true.
    now destruct (usesListSearch code).
  - assert (K : exists kind, analyzeRecursion code = recursionOf kind
                             /\ In kind [lit "fibonacci"; lit "factorial"; lit "linear"]).
    { destruct H as [<-|[<-|[<-|[]]]]; eexists; split; try reflexivity; cbn; auto. }
    destruct K as (kind & -> & Hk). cbn [hasRecursion type recursionOf].
    pose proof (byRecursion (analyzeNestedLoops code) kind Hk) as E.
    destruct Hk as [<-|[<-|[<-|[]]]];
      now apply ClassifierFacts.bySearch_keeps.
Qed.

(** A loop header is recognised at every indentation: white space in
    front of a line does not change the loop-start test. *)
Theorem loop_header_any_indentation (ws line : jsstring) :
  forallb isSpace ws = true ->
  isLoopStart (trim (ws ++ line)) = isLoopStart (trim line).
Proof. intros H. now rewrite trim_indent. Qed.

Lemma loop_header_any_indentation_witness :
  isLoopStart (trim (lit "        " ++ lit "while x:")) = true.
Proof.
  rewrite (loop_header_any_indentation (lit "        ") (lit "while x:") eq_refl).
  reflexivity.
Defined.

(** The test for a blank line, [trimmed === ''], holds exactly for the
    lines that hold white space only. *)
Theorem blank_line_test (line : jsstring) :
  eqb (trim line) [] = true <-> forallb isSpace line = true.
Proof.
  rewrite eqb_eq. unfold trim. rewrite <- dropWhile_all. split.
  - intros E. apply (f_equal (@rev _)) in E. rewrite rev_involutive in E.
    cbn [rev] in E. pose proof (dropWhile_head isSpace line) as Hh.
    destruct (dropWhile isSpace line) as [|c t]; [reflexivity|].
    cbn [rev] in E. rewrite dropWhile_snoc in E by assumption.
    destruct (dropWhile isSpace (rev t)); discriminate E.
  - intros ->. reflexivity.
Qed.
